(** * content-hub-api: request pipeline guards and middleware

    A shallow embedding of the policy checks of the request pipeline
    ([JwtAuthGuard], [RolesGuard], [FeatureFlagGuard],
    [TenantContextMiddleware], [LoggerMiddleware]) and the properties
    proved about them.

    Conventions of the embedding:
    - a JavaScript value that may be [undefined] or [null] is an [option];
    - a function that may throw returns a [result]: [Ok v] for a normal
      return, [Throw e] for an exception carrying payload [e];
    - JavaScript truthiness is written out where the source relies on it
      ([x || d], [if (x)], [!x]). *)

From Stdlib Require Import String Ascii List ZArith Bool Lia DecimalString
  DecimalNat.
Import ListNotations.
Open Scope string_scope.

Set Implicit Arguments.
Set Warnings "-register-all".

(** ** Shared JavaScript vocabulary *)

Inductive result (E A : Type) : Type :=
| Ok (a : A)
| Throw (e : E).
Arguments Ok {E A} a.
Arguments Throw {E A} e.

(** [s] as a condition: only the empty string is falsy. *)
Definition truthy_string (s : string) : bool := negb (s =? "").

(** [x || d] for a possibly undefined string [x]. *)
Definition or_else (x : option string) (d : string) : string :=
  match x with
  | Some s => if truthy_string s then s else d
  | None => d
  end.

(** A possibly null string used as a condition: [Some s] when truthy. *)
Definition if_truthy (x : option string) : option string :=
  match x with
  | Some s => if truthy_string s then Some s else None
  | None => None
  end.

(** [xs.includes(x)] on an array of strings. *)
Definition includes (xs : list string) (x : string) : bool :=
  existsb (String.eqb x) xs.

(** ** JwtAuthGuard.handleRequest (common/guards/jwt-auth.guard.ts) *)

Module JwtAuth.

(** The error classes the guard tests with [instanceof].  In the
    jsonwebtoken library [TokenExpiredError] and [NotBeforeError] both
    derive from [JsonWebTokenError], which derives from [Error]. *)
Inductive ErrorClass : Type :=
| ClsError
| ClsJsonWebTokenError
| ClsTokenExpiredError
| ClsNotBeforeError.

Record JsError : Type := { cls : ErrorClass; message : string }.

(** [e instanceof C] along the prototype chain. *)
Definition instanceof (e : JsError) (c : ErrorClass) : bool :=
  match c, cls e with
  | ClsError, _ => true
  | ClsJsonWebTokenError, (ClsJsonWebTokenError | ClsTokenExpiredError | ClsNotBeforeError) => true
  | ClsTokenExpiredError, ClsTokenExpiredError => true
  | ClsNotBeforeError, ClsNotBeforeError => true
  | _, _ => false
  end.

Inductive Code : Type :=
| TOKEN_EXPIRED
| INVALID_TOKEN
| TOKEN_MISSING
| UNAUTHORIZED.

(** Payload of the [UnauthorizedException] thrown by the guard. *)
Record Rejection : Type :=
  { rej_message : string; rej_code : Code; rej_requestId : string }.

Section HandleRequest.
(** The identity type [T] is generic in the source; a falsy [user]
    ([null], [undefined], [false], [0], the empty string) is [None]. *)
Variable T : Type.

(** [info instanceof C], false when [info] is [null]. *)
Definition info_instanceof (info : option JsError) (c : ErrorClass) : bool :=
  match info with Some i => instanceof i c | None => false end.

(** [info?.message === m]. *)
Definition info_message_is (info : option JsError) (m : string) : bool :=
  match info with Some i => message i =? m | None => false end.

Definition handleRequest (err : option JsError) (user : option T)
    (info : option JsError) (request_requestId : option string)
  : result Rejection T :=
  let requestId := or_else request_requestId "no-request-id" in
  if info_instanceof info ClsTokenExpiredError then
    Throw {| rej_message := "Token has expired";
             rej_code := TOKEN_EXPIRED; rej_requestId := requestId |}
  else if info_instanceof info ClsJsonWebTokenError then
    Throw {| rej_message := "Invalid token";
             rej_code := INVALID_TOKEN; rej_requestId := requestId |}
  else if info_message_is info "No auth token" then
    Throw {| rej_message := "Authentication token is required";
             rej_code := TOKEN_MISSING; rej_requestId := requestId |}
  else
    (* if (err || !user) throw ...; return user *)
    match err, user with
    | None, Some u => Ok u
    | _, _ =>
        Throw {| rej_message := "Unauthorized access";
                 rej_code := UNAUTHORIZED; rej_requestId := requestId |}
    end.

(** *** The precedence order as the specification words it *)

(** Which failure signals an outcome of the credential validator
    carries, read off the outcome itself: the token has expired when [info]
    is a TokenExpiredError; the token is invalid when [info] is a
    JsonWebTokenError or of a class derived from it; no token was supplied
    when the message of [info] is 'No auth token'; and the request is
    unauthorized when there is an error or no identity. *)
Definition signals (err : option JsError) (user : option T)
    (info : option JsError) (c : Code) : bool :=
  match c with
  | TOKEN_EXPIRED =>
      match info with
      | Some {| cls := ClsTokenExpiredError |} => true
      | _ => false
      end
  | INVALID_TOKEN =>
      match info with
      | Some {| cls := ClsJsonWebTokenError |}
      | Some {| cls := ClsTokenExpiredError |}
      | Some {| cls := ClsNotBeforeError |} => true
      | _ => false
      end
  | TOKEN_MISSING =>
      match info with
      | Some {| message := m |} => m =? "No auth token"
      | None => false
      end
  | UNAUTHORIZED =>
      match err, user with None, Some _ => false | _, _ => true end
  end.

Definition precedence : list Code :=
  [TOKEN_EXPIRED; INVALID_TOKEN; TOKEN_MISSING; UNAUTHORIZED].

Definition message_of (c : Code) : string :=
  match c with
  | TOKEN_EXPIRED => "Token has expired"
  | INVALID_TOKEN => "Invalid token"
  | TOKEN_MISSING => "Authentication token is required"
  | UNAUTHORIZED => "Unauthorized access"
  end.

(** The kind the precedence order selects: the first code of
    [precedence] whose signal is raised. *)
Definition selected (err : option JsError) (user : option T)
    (info : option JsError) : option Code :=
  find (signals err user info) precedence.

End HandleRequest.

End JwtAuth.

(** ** RolesGuard.canActivate (common/guards/role.guard.ts) *)

Module Roles.

(** The part of [request.user] the guard reads; [user.roles] may be
    missing. *)
Record User : Type := { roles : option (list string) }.

Inductive Code : Type :=
| USER_NOT_FOUND
| INSUFFICIENT_ROLES.

(** Payload of the [ForbiddenException]; the two role lists are only
    present in the [INSUFFICIENT_ROLES] payload. *)
Record Rejection : Type :=
  { rej_message : string;
    rej_code : Code;
    rej_requiredRoles : option (list string);
    rej_userRoles : option (list string);
    rej_requestId : string }.

(** [user.roles || []]. *)
Definition roles_of (u : User) : list string :=
  match roles u with Some rs => rs | None => [] end.

(** [requiredRoles] is the reflector's metadata ([undefined] when the
    endpoint carries no [@Roles]); [user] is [request.user], [None] when
    falsy. *)
Definition canActivate (requiredRoles : option (list string))
    (user : option User) (request_requestId : option string)
  : result Rejection bool :=
  match requiredRoles with
  | None => Ok true
  | Some [] => Ok true
  | Some required =>
      let requestId := or_else request_requestId "no-request-id" in
      match user with
      | None =>
          Throw {| rej_message := "User not Authenticated";
                   rej_code := USER_NOT_FOUND;
                   rej_requiredRoles := None;
                   rej_userRoles := None;
                   rej_requestId := requestId |}
      | Some u =>
          let userRoles := roles_of u in
          let hasRole := existsb (fun r => includes userRoles r) required in
          if negb hasRole then
            Throw {| rej_message := "Insufficient permissions";
                     rej_code := INSUFFICIENT_ROLES;
                     rej_requiredRoles := Some required;
                     rej_userRoles := Some userRoles;
                     rej_requestId := requestId |}
          else Ok true
      end
  end.

End Roles.

(** ** TenantContextMiddleware (common/middleware/tenant-context.middleware.ts) *)

Module Tenant.

Inductive Source : Type :=
| subdomain_source
| header_source
| default_source.

Record TenantContext : Type :=
  { tenantId : string;
    subdomain : option string;
    source : Source }.

(** [req.headers['x-tenant-id']]: absent, one string, or an array of
    strings.  An array is given by its first element and the rest, so that
    [headerTenantId[0]] is a string, as its type says. *)
Inductive HeaderValue : Type :=
| HAbsent
| HString (s : string)
| HArray (first : string) (rest : list string).

(** The fields of the request the middleware reads.  [hostname] is
    [undefined] when the request has no Host header. *)
Record Request : Type :=
  { originalUrl : string;
    hostname : option string;
    x_tenant_id : HeaderValue;
    requestId : option string }.

Definition excludedPaths : list string :=
  ["/health"; "/api/public"; "/api/auth/register"].

Definition ignoredSubdomains : list string := ["www"; "api"; "admin"; "app"].

(** [s.split('.')]: never empty, the empty string splits into [['']]. *)
Fixpoint split_dot (s : string) : list string :=
  match s with
  | EmptyString => [EmptyString]
  | String c rest =>
      if Ascii.eqb c "."%char then EmptyString :: split_dot rest
      else
        match split_dot rest with
        | h :: t => String c h :: t
        | [] => [String c EmptyString]
        end
  end.

(** [\d]: an ASCII decimal digit. *)
Definition is_digit (c : ascii) : bool :=
  let n := nat_of_ascii c in (48 <=? n)%nat && (n <=? 57)%nat.

Fixpoint all_digits (s : string) : bool :=
  match s with
  | EmptyString => true
  | String c rest => is_digit c && all_digits rest
  end.

(** [/^\d+\.\d+\.\d+\.\d+$/.test(hostname)]: as [\d+] matches no dot,
    the pattern matches exactly the strings made of four non-empty groups of
    digits separated by dots. *)
Definition is_ipv4 (hostname : string) : bool :=
  match split_dot hostname with
  | [a; b; c; d] =>
      forallb (fun p => truthy_string p && all_digits p) [a; b; c; d]
  | _ => false
  end.

(** The thrown value of a failed property access on [undefined]. *)
Definition split_of_undefined : string :=
  "Cannot read properties of undefined (reading 'split')".

Definition extractSubdomain (hostname : option string)
  : result string (option string) :=
  match hostname with
  | None =>
      (* neither test matches undefined; hostname.split then throws *)
      Throw split_of_undefined
  | Some h =>
      if (h =? "localhost") || is_ipv4 h then Ok None
      else
        let parts := split_dot h in
        if (3 <=? List.length parts)%nat then
          let sub := hd EmptyString parts in
          if negb (includes ignoredSubdomains sub) then Ok (Some sub)
          else Ok None
        else Ok None
  end.

(** [if (headerTenantId)]: an absent header and the empty string are
    falsy, an array is truthy whatever it holds. *)
Definition header_truthy (h : HeaderValue) : bool :=
  match h with
  | HAbsent => false
  | HString s => truthy_string s
  | HArray _ _ => true
  end.

(** [Array.isArray(h) ? h[0] : h], for a header that is there. *)
Definition header_first (h : HeaderValue) : string :=
  match h with
  | HArray first _ => first
  | HString s => s
  | HAbsent => EmptyString
  end.

(** [defaultTenant] is the field [process.env.DEFAULT_TENANT_ID || null]. *)
Definition extractTenantContext (defaultTenant : option string) (req : Request)
  : result string (option TenantContext) :=
  let headerTenantId := x_tenant_id req in
  if header_truthy headerTenantId then
    Ok (Some {| tenantId := header_first headerTenantId;
                subdomain := None;
                source := header_source |})
  else
    match extractSubdomain (hostname req) with
    | Throw e => Throw e
    | Ok sub =>
        match if_truthy sub with
        | Some s =>
            Ok (Some {| tenantId := s; subdomain := Some s;
                        source := subdomain_source |})
        | None =>
            match if_truthy defaultTenant with
            | Some d =>
                Ok (Some {| tenantId := d; subdomain := None;
                            source := default_source |})
            | None => Ok None
            end
        end
    end.

Definition isExcludedPath (path : string) : bool :=
  existsb (fun excluded => (path =? excluded) || prefix (excluded ++ "/") path)
          excludedPaths.

(** What [use] leaves behind when it returns: the value stored in
    [req['tenantContext']], the [x-tenant-id] response header if it was
    set, and whether [next()] was called. *)
Record Outcome : Type :=
  { req_tenantContext : option TenantContext;
    res_x_tenant_id : option string;
    next_called : bool }.

(** Payload of the [BadRequestException]. *)
Record BadRequest : Type :=
  { bad_message : string; bad_requestId : string; bad_error : string }.

(** A thrown value: an instance of Error with its message, or any other
    value. *)
Inductive Thrown : Type :=
| ThrownError (message : string)
| ThrownOther.

(** [error instanceof Error ? error.message : 'Unknown error occurred']. *)
Definition errorMessage (error : Thrown) : string :=
  match error with
  | ThrownError message => message
  | ThrownOther => "Unknown error occurred"
  end.

(** What [use] throws: the [BadRequestException] of its [catch], or, for an
    excluded path, whatever [next()] threw. *)
Inductive Exception : Type :=
| BadRequestException (payload : BadRequest)
| Uncaught (error : Thrown).

(** What the call [next()] does: it returns, or it throws. *)
Definition NextFunction : Type := result Thrown unit.

(** The payload [use] throws for the request [req] when the error caught
    has the message [error]. *)
Definition bad_request (req : Request) (error : string) : BadRequest :=
  {| bad_message := "Unable to determine tenant context";
     bad_requestId := or_else (requestId req) "no-request-id";
     bad_error := error |}.

(** A continuation byte of UTF-8, 0x80 to 0xBF. *)
Definition is_continuation (c : ascii) : bool :=
  let n := nat_of_ascii c in (128 <=? n)%nat && (n <=? 191)%nat.

(** Whether Node accepts [value] as the value of a response header: no
    character may match [/[^\t\x20-\x7e\x80-\xff]/].  A string here is the
    UTF-8 encoding of the JavaScript string, so that a character from
    U+0080 to U+00FF is a byte 0xC2 or 0xC3 followed by a continuation byte,
    and every other byte from 0x80 on belongs to a character above
    U+00FF. *)
Fixpoint header_value_ok (value : string) : bool :=
  match value with
  | EmptyString => true
  | String c rest =>
      let n := nat_of_ascii c in
      if (n <? 128)%nat then
        ((n =? 9)%nat || ((32 <=? n)%nat && (n <=? 126)%nat))
        && header_value_ok rest
      else if (n =? 194)%nat || (n =? 195)%nat then
        match rest with
        | String c' rest' => is_continuation c' && header_value_ok rest'
        | EmptyString => false
        end
      else false
  end.

(** The message of the TypeError (ERR_INVALID_CHAR) that
    [res.setHeader('x-tenant-id', value)] throws for a value it refuses:
    [Invalid character in header content ["x-tenant-id"]]. *)
Definition invalid_header_content : string :=
  "Invalid character in header content ["
  ++ String (ascii_of_nat 34) "x-tenant-id"
  ++ String (ascii_of_nat 34) "]".

(** [res.setHeader('x-tenant-id', value)] on a response that has not been
    started. *)
Definition setHeader_x_tenant_id (value : string) : result Thrown unit :=
  if header_value_ok value then Ok tt
  else Throw (ThrownError invalid_header_content).

(** [use].  For an excluded path [next()] is called outside the [try], and
    what it throws leaves [use] as it is.  Inside the [try] are the
    resolution (whose only exception is the TypeError of
    [extractSubdomain]), the write of the response header and [next()];
    the [catch] throws [bad_request] with the message of what was thrown
    there. *)
Definition use (defaultTenant : option string) (req : Request)
    (next : NextFunction) : result Exception Outcome :=
  if isExcludedPath (originalUrl req) then
    match next with
    | Ok _ =>
        Ok {| req_tenantContext := None; res_x_tenant_id := None;
              next_called := true |}
    | Throw error => Throw (Uncaught error)
    end
  else
    let attempt : result Thrown Outcome :=
      match extractTenantContext defaultTenant req with
      | Throw message => Throw (ThrownError message)
      | Ok tenantContext =>
          match
            match tenantContext with
            | Some context => setHeader_x_tenant_id (tenantId context)
            | None => Ok tt
            end
          with
          | Throw error => Throw error
          | Ok _ =>
              match next with
              | Throw error => Throw error
              | Ok _ =>
                  Ok {| req_tenantContext := tenantContext;
                        res_x_tenant_id := option_map tenantId tenantContext;
                        next_called := true |}
              end
          end
      end in
    match attempt with
    | Ok outcome => Ok outcome
    | Throw error =>
        Throw (BadRequestException (bad_request req (errorMessage error)))
    end.

(** A call of [next()] that returns. *)
Definition returns : NextFunction := Ok tt.

(** The same request without its [x-tenant-id] header. *)
Definition without_header (req : Request) : Request :=
  {| originalUrl := originalUrl req;
     hostname := hostname req;
     x_tenant_id := HAbsent;
     requestId := requestId req |}.

(** What [use] returns once a tenant context was resolved for a path that
    is not excluded. *)
Definition resolved (tc : TenantContext) : Outcome :=
  {| req_tenantContext := Some tc;
     res_x_tenant_id := Some (tenantId tc);
     next_called := true |}.

(** What [use] returns when it resolved nothing: for an excluded path, and
    for a request without any tenant. *)
Definition skipped : Outcome :=
  {| req_tenantContext := None; res_x_tenant_id := None; next_called := true |}.

(** How a run of [use] ends that reached [next()] inside the [try] and has
    left [o] behind: with [o] when [next()] returns, and with the
    [BadRequestException] of the [catch] when [next()] throws. *)
Definition forwarded (req : Request) (next : NextFunction) (o : Outcome)
  : result Exception Outcome :=
  match next with
  | Ok _ => Ok o
  | Throw (ThrownError message) =>
      Throw (BadRequestException
               {| bad_message := "Unable to determine tenant context";
                  bad_requestId := or_else (requestId req) "no-request-id";
                  bad_error := message |})
  | Throw ThrownOther =>
      Throw (BadRequestException
               {| bad_message := "Unable to determine tenant context";
                  bad_requestId := or_else (requestId req) "no-request-id";
                  bad_error := "Unknown error occurred" |})
  end.

End Tenant.

(** ** FeatureFlagGuard (common/guards/feature-flag.guard.ts) *)

Module FeatureFlag.

Definition enabledFeatures : list string := ["new-dashboard"; "beta-reports"].

(** The object literal [disabledForTenants]: feature name to the tenants
    it is switched off for. *)
Definition disabledForTenants : list (string * list string) :=
  [("beta-reports", ["tenant-123"])].

(** [disabledForTenants[flag]], [None] for [undefined]. *)
Fixpoint lookup_disabled (table : list (string * list string)) (flag : string)
  : option (list string) :=
  match table with
  | [] => None
  | (k, ts) :: rest => if k =? flag then Some ts else lookup_disabled rest flag
  end.

Definition isFeatureEnabled (flag : string) (tenantId : option string) : bool :=
  if negb (includes enabledFeatures flag) then false
  else
    match if_truthy tenantId with
    | Some t =>
        match lookup_disabled disabledForTenants flag with
        | Some ts => if includes ts t then false else true
        | None => true
        end
    | None => true
    end.

Inductive Code : Type := FEATURE_DISABLED.

(** Payload of the [ForbiddenException]. *)
Record Rejection : Type :=
  { rej_message : string;
    rej_code : Code;
    rej_feature : string;
    rej_requestId : string }.

(** [requiredFlag] is the reflector's metadata, [request_tenantContext]
    the value the tenant middleware stored on the request. *)
Definition canActivate (requiredFlag : option string)
    (request_tenantContext : option Tenant.TenantContext)
    (request_requestId : option string)
  : result Rejection bool :=
  match if_truthy requiredFlag with
  | None => Ok true
  | Some flag =>
      let requestId := or_else request_requestId "no-request-id" in
      let tenantId := option_map Tenant.tenantId request_tenantContext in
      let isEnabled := isFeatureEnabled flag tenantId in
      if negb isEnabled then
        Throw {| rej_message := "Feature not available";
                 rej_code := FEATURE_DISABLED;
                 rej_feature := flag;
                 rej_requestId := requestId |}
      else Ok true
  end.

(** A tenant context as the middleware stores it for tenant id [t] taken
    from the header. *)
Definition in_tenant (t : string) : Tenant.TenantContext :=
  {| Tenant.tenantId := t; Tenant.subdomain := None;
     Tenant.source := Tenant.header_source |}.

End FeatureFlag.

(** ** LoggerMiddleware (common/middleware/logger.middleware.ts) *)

Module Logger.

Definition string_of_Z (n : Z) : string :=
  DecimalString.NilZero.string_of_int (Z.to_int n).

(** A number, by the two things the middleware observes of it: whether it
    is falsy as a condition (0, -0 and NaN are), and the text
    [JSON.stringify] prints for it (the text of [Number.prototype.toString],
    and [null] for NaN and the infinities). *)
Record number : Type :=
  { falsy : bool;
    json : string }.

(** Request bodies as trees of plain data.  An object is the list of its
    own enumerable properties in enumeration order; [sanitizeBody] only
    assigns to properties that exist, so the order of the copy is the order
    of the body. *)
Inductive value : Type :=
| VUndefined
| VNull
| VBool (b : bool)
| VNumber (x : number)
| VBigInt (n : Z)
| VStr (s : string)
| VArr (elems : list value)
| VObj (props : list (string * value)).

(** The number that is the integer [n], for a safe integer (below 2^53 in
    absolute value): it is falsy when it is 0, and it prints as its decimal
    digits. *)
Definition VNum (n : Z) : value :=
  VNumber {| falsy := (n =? 0)%Z; json := string_of_Z n |}.

Definition object : Type := list (string * value).

(** A value used as a condition. *)
Definition truthy (v : value) : bool :=
  match v with
  | VUndefined | VNull => false
  | VBool b => b
  | VNumber x => negb (falsy x)
  | VBigInt n => negb (n =? 0)%Z
  | VStr s => truthy_string s
  | VArr _ | VObj _ => true
  end.

(** [o[k]]: the first property named [k], [undefined] when there is none. *)
Fixpoint get (o : object) (k : string) : value :=
  match o with
  | [] => VUndefined
  | (k', v) :: rest => if k' =? k then v else get rest k
  end.

(** [o[k] = v]: an existing property keeps its place, a new one goes last. *)
Fixpoint set (o : object) (k : string) (v : value) : object :=
  match o with
  | [] => [(k, v)]
  | (k', v') :: rest =>
      if k' =? k then (k', v) :: rest else (k', v') :: set rest k v
  end.

(** [Object.keys(o)]. *)
Definition keys (o : object) : list string := map fst o.

Definition decimal (n : nat) : string :=
  DecimalString.NilZero.string_of_uint (Nat.to_uint n).

(** Array elements as properties named by their index, from index [i]. *)
Fixpoint indexed (i : nat) (elems : list value) : object :=
  match elems with
  | [] => []
  | x :: rest => (decimal i, x) :: indexed (S i) rest
  end.

Fixpoint chars (s : string) : list value :=
  match s with
  | EmptyString => []
  | String c rest => VStr (String c EmptyString) :: chars rest
  end.

(** The own enumerable properties of a value, as [{...v}] and
    [Object.keys(v)] see them. *)
Definition spread (v : value) : object :=
  match v with
  | VObj o => o
  | VArr elems => indexed 0 elems
  | VStr s => indexed 0 (chars s)
  | _ => []
  end.

Definition sensitiveFields : list string :=
  ["password"; "token"; "secret"; "authorization"; "creditCard"; "cvv"].

Definition REDACTED : value := VStr "[REDACTED]".

(** Body of the first loop of [sanitizeBody]. *)
Definition redact (sanitized : object) (field : string) : object :=
  if truthy (get sanitized field) then set sanitized field REDACTED
  else sanitized.

(** [sanitizeBody], with the depth of the call stack bounded by [fuel]:
    [None] stands for a stack that overflowed. *)
Fixpoint sanitizeBody (fuel : nat) (body : value) : option object :=
  match fuel with
  | O => None
  | S fuel' =>
      let sanitized := spread body in
      let sanitized := fold_left redact sensitiveFields sanitized in
      fold_left
        (fun acc key =>
           match acc with
           | None => None
           | Some sanitized =>
               match get sanitized key with
               | VObj o =>
                   match sanitizeBody fuel' (VObj o) with
                   | Some o' => Some (set sanitized key (VObj o'))
                   | None => None
                   end
               | _ => Some sanitized
               end
           end)
        (keys sanitized) (Some sanitized)
  end.

(** How deep mappings nest inside mappings; what hangs under an array does
    not count, as [sanitizeBody] never enters an array. *)
Fixpoint nesting (v : value) : nat :=
  match v with
  | VObj o =>
      S ((fix deepest (ps : list (string * value)) : nat :=
            match ps with
            | [] => O
            | (_, x) :: rest => Nat.max (nesting x) (deepest rest)
            end) o)
  | _ => O
  end.

(** The deepest nesting among the values of [ps]. *)
Fixpoint deepest (ps : object) : nat :=
  match ps with
  | [] => O
  | (_, x) :: rest => Nat.max (nesting x) (deepest rest)
  end.

(** No string occurs twice in [ks]. *)
Fixpoint distinct (ks : list string) : bool :=
  match ks with
  | [] => true
  | k :: rest => negb (includes rest k) && distinct rest
  end.

(** No object of the structure names a property twice. *)
Fixpoint unique_keys (v : value) : bool :=
  match v with
  | VObj o =>
      distinct (keys o) &&
      (fix all (ps : list (string * value)) : bool :=
         match ps with
         | [] => true
         | (_, x) :: rest => unique_keys x && all rest
         end) o
  | VArr elems =>
      (fix all (xs : list value) : bool :=
         match xs with
         | [] => true
         | x :: rest => unique_keys x && all rest
         end) elems
  | _ => true
  end.

(** The value reached from [v] by following the property names of [path]
    through mappings only. *)
Fixpoint descend (v : value) (path : list string) : value :=
  match path with
  | [] => v
  | k :: rest =>
      match v with
      | VObj o => descend (get o k) rest
      | _ => VUndefined
      end
  end.

(** What [sanitizeBody] computes property by property, by recursion on the
    tree; [sanitizeBody_props] below proves that the loops compute it. *)
Fixpoint sanitized_value (k : string) (v : value) : value :=
  if includes sensitiveFields k && truthy v then REDACTED
  else
    match v with
    | VObj o =>
        VObj ((fix props (ps : list (string * value)) : list (string * value) :=
                 match ps with
                 | [] => []
                 | (k', x) :: rest => (k', sanitized_value k' x) :: props rest
                 end) o)
    | _ => v
    end.

Fixpoint sanitized_props (ps : object) : object :=
  match ps with
  | [] => []
  | (k, x) :: rest => (k, sanitized_value k x) :: sanitized_props rest
  end.

(** The first loop run over [fields]. *)
Definition redact_props (fields : list string) (o : object) : object :=
  map (fun kv =>
         (fst kv,
          if includes fields (fst kv) && truthy (snd kv) then REDACTED
          else snd kv))
      o.

(** What the second loop stores for a value it visits. *)
Definition nested (v : value) : value :=
  match v with
  | VObj o => VObj (sanitized_props o)
  | _ => v
  end.

(** The second loop run over the keys [ks]. *)
Definition nested_props (ks : list string) (o : object) : object :=
  map (fun kv =>
         (fst kv, if includes ks (fst kv) then nested (snd kv) else snd kv))
      o.

(** The body of the second loop, with [fuel] left for the calls. *)
Definition nested_step (fuel : nat) (acc : option object) (key : string)
  : option object :=
  match acc with
  | None => None
  | Some sanitized =>
      match get sanitized key with
      | VObj o =>
          match sanitizeBody fuel (VObj o) with
          | Some o' => Some (set sanitized key (VObj o'))
          | None => None
          end
      | _ => Some sanitized
      end
  end.

(** *** JSON.stringify on trees *)

(** The double quote and the backslash, as one-character strings. *)
Definition dquote : string := String (ascii_of_nat 34) EmptyString.

Definition backslash : string := String (ascii_of_nat 92) EmptyString.

Definition hex_digit (n : nat) : ascii :=
  if (n <? 10)%nat then ascii_of_nat (48 + n) else ascii_of_nat (87 + n).

(** One character inside a JSON string literal. *)
Definition quote_char (c : ascii) : string :=
  let n := nat_of_ascii c in
  if (n =? 34)%nat then backslash ++ dquote
  else if (n =? 92)%nat then backslash ++ backslash
  else if (n =? 8)%nat then backslash ++ "b"
  else if (n =? 9)%nat then backslash ++ "t"
  else if (n =? 10)%nat then backslash ++ "n"
  else if (n =? 12)%nat then backslash ++ "f"
  else if (n =? 13)%nat then backslash ++ "r"
  else if (n <? 32)%nat then
    backslash ++ "u00" ++
    String (hex_digit (n / 16)) (String (hex_digit (n mod 16)) EmptyString)
  else String c EmptyString.

Fixpoint quote_chars (s : string) : string :=
  match s with
  | EmptyString => EmptyString
  | String c rest => quote_char c ++ quote_chars rest
  end.

Definition quote (s : string) : string := dquote ++ quote_chars s ++ dquote.

Inductive JsException : Type :=
| TypeError (msg : string)
| RangeError (msg : string).

(** Serialisation of one value; [Ok None] is [undefined], which an object
    leaves out and an array prints as [null]; a BigInt throws. *)
Fixpoint serialize (v : value) : result JsException (option string) :=
  match v with
  | VUndefined => Ok None
  | VNull => Ok (Some "null")
  | VBool b => Ok (Some (if b then "true" else "false"))
  | VNumber x => Ok (Some (json x))
  | VBigInt _ => Throw (TypeError "Do not know how to serialize a BigInt")
  | VStr s => Ok (Some (quote s))
  | VArr elems =>
      match
        (fix items (xs : list value) : result JsException (list string) :=
           match xs with
           | [] => Ok []
           | x :: rest =>
               match serialize x with
               | Throw e => Throw e
               | Ok sx =>
                   match items rest with
                   | Throw e => Throw e
                   | Ok srest =>
                       Ok (match sx with Some t => t | None => "null" end :: srest)
                   end
               end
           end) elems
      with
      | Throw e => Throw e
      | Ok parts => Ok (Some ("[" ++ String.concat "," parts ++ "]"))
      end
  | VObj o =>
      match
        (fix members (ps : list (string * value)) : result JsException (list string) :=
           match ps with
           | [] => Ok []
           | (k, x) :: rest =>
               match serialize x with
               | Throw e => Throw e
               | Ok sx =>
                   match members rest with
                   | Throw e => Throw e
                   | Ok srest =>
                       Ok (match sx with
                           | Some t => (quote k ++ ":" ++ t) :: srest
                           | None => srest
                           end)
                   end
               end
           end) o
      with
      | Throw e => Throw e
      | Ok parts => Ok (Some ("{" ++ String.concat "," parts ++ "}"))
      end
  end.

(** [`${JSON.stringify(v)}`]. *)
Definition JSON_stringify (v : value) : result JsException string :=
  match serialize v with
  | Throw e => Throw e
  | Ok (Some s) => Ok s
  | Ok None => Ok "undefined"
  end.

(** *** LoggerMiddleware.use *)

Inductive Level : Type := LOG | DEBUG | WARN | ERROR.

Record LogLine : Type := { level : Level; text : string }.

Record Request : Type :=
  { method : string;
    originalUrl : string;
    user_agent : option string;
    body : value;
    requestId : option string }.

Definition stack_overflow : JsException :=
  RangeError "Maximum call stack size exceeded".

(** [use] up to its call of [next()]: the lines logged, in order, and
    whether the call returned or threw.  The [finish] handler it registers
    is [on_finish]. *)
Definition use (fuel : nat) (req : Request)
  : list LogLine * result JsException unit :=
  let userAgent := or_else (user_agent req) "unknown" in
  let rid := or_else (requestId req) "no-request-id" in
  let incoming :=
    {| level := LOG;
       text := "[" ++ rid ++ "] Incoming: " ++ method req ++ " " ++
               originalUrl req ++ " - UserAgent: " ++ userAgent |} in
  if truthy (body req) && (0 <? List.length (keys (spread (body req))))%nat then
    match sanitizeBody fuel (body req) with
    | None => ([incoming], Throw stack_overflow)
    | Some sanitizedBody =>
        match JSON_stringify (VObj sanitizedBody) with
        | Throw e => ([incoming], Throw e)
        | Ok json =>
            ([incoming;
              {| level := DEBUG; text := "[" ++ rid ++ "] Body: " ++ json |}],
             Ok tt)
        end
    end
  else ([incoming], Ok tt).

(** The handler of the response's [finish] event. *)
Definition on_finish (req : Request) (statusCode : Z) (duration : Z) : LogLine :=
  let rid := or_else (requestId req) "no-request-id" in
  let logMessage :=
    "[" ++ rid ++ "] Completed: " ++ method req ++ " " ++ originalUrl req ++
    " - Status: " ++ string_of_Z statusCode ++
    " - Duration: " ++ string_of_Z duration ++ "ms" in
  if (500 <=? statusCode)%Z then {| level := ERROR; text := logMessage |}
  else if (400 <=? statusCode)%Z then {| level := WARN; text := logMessage |}
  else {| level := LOG; text := logMessage |}.

(** The line the tests of the middleware expect when the body cannot be
    serialised. *)
Definition serialization_fallback : string :=
  "[Unable to serialize - circular reference detected]".

(** The request of the test "should handle objects with BigInt values":
    [{ name: 'test', bigNumber: BigInt(9007199254740991) }] posted to
    /api/bigint. *)
Definition bigint_request : Request :=
  {| method := "POST";
     originalUrl := "/api/bigint";
     user_agent := None;
     body := VObj [("name", VStr "test");
                   ("bigNumber", VBigInt 9007199254740991)];
     requestId := None |}.

(** The request of the test "should log request body when present". *)
Definition plain_request : Request :=
  {| method := "GET";
     originalUrl := "/api/test";
     user_agent := Some "test-agent";
     body := VObj [("name", VStr "test"); ("age", VNum 25)];
     requestId := Some "test-request-id" |}.

(** [{ user: { name: 'john', password: 'secret',
              tags: ['t1', { password: 'p' }] } }]. *)
Definition nested_body : object :=
  [("user",
    VObj [("name", VStr "john");
          ("password", VStr "secret");
          ("tags", VArr [VStr "t1"; VObj [("password", VStr "p")]])])].

End Logger.

(** ** sanitizeBody on bodies that may refer to themselves *)

Module Cyclic.

(** Values whose mappings are held by reference: [VRef a] is the object
    stored at address [a] of the heap, so that an object can be reached
    from itself.  Of a number [sanitizeBody] only observes whether it is
    falsy: a number is given here by an integer that is 0 exactly when the
    number is falsy (0, -0, NaN). *)
Inductive value : Type :=
| VUndefined
| VNull
| VBool (b : bool)
| VNum (n : Z)
| VBigInt (n : Z)
| VStr (s : string)
| VArr (elems : list value)
| VRef (address : nat).

Definition object : Type := list (string * value).

(** The objects allocated so far; an address is a position in the list and
    a new object goes last. *)
Definition heap : Type := list object.

Definition truthy (v : value) : bool :=
  match v with
  | VUndefined | VNull => false
  | VBool b => b
  | VNum n | VBigInt n => negb (n =? 0)%Z
  | VStr s => truthy_string s
  | VArr _ | VRef _ => true
  end.

Fixpoint get (o : object) (k : string) : value :=
  match o with
  | [] => VUndefined
  | (k', v) :: rest => if k' =? k then v else get rest k
  end.

Fixpoint set (o : object) (k : string) (v : value) : object :=
  match o with
  | [] => [(k, v)]
  | (k', v') :: rest =>
      if k' =? k then (k', v) :: rest else (k', v') :: set rest k v
  end.

Definition keys (o : object) : list string := map fst o.

(** The object at address [a]. *)
Definition deref (h : heap) (a : nat) : object := nth a h [].

Fixpoint store (h : heap) (a : nat) (o : object) : heap :=
  match h, a with
  | [], _ => []
  | _ :: rest, O => o :: rest
  | x :: rest, S a' => x :: store rest a' o
  end.

(** [obj[k] = v] for the object at address [a]. *)
Definition assign (h : heap) (a : nat) (k : string) (v : value) : heap :=
  store h a (set (deref h a) k v).

Definition sensitiveFields : list string :=
  ["password"; "token"; "secret"; "authorization"; "creditCard"; "cvv"].

Definition REDACTED : value := VStr "[REDACTED]".

(** Body of the first loop, for the copy at address [sanitized]. *)
Definition redact_step (sanitized : nat) (h : heap) (field : string) : heap :=
  if truthy (get (deref h sanitized) field)
  then assign h sanitized field REDACTED
  else h.

(** [sanitizeBody] on the object at address [body]: the copy
    [{...body}] is allocated at the next free address, the two loops
    assign to it in place, and its address is returned with the heap.
    [None] stands for a call stack that overflowed. *)
Fixpoint sanitizeBody (fuel : nat) (h : heap) (body : nat) : option (heap * nat) :=
  match fuel with
  | O => None
  | S fuel' =>
      let sanitized := List.length h in
      let h := (h ++ [deref h body])%list in
      let h := fold_left (redact_step sanitized) sensitiveFields h in
      let after :=
        fold_left
          (fun acc key =>
             match acc with
             | None => None
             | Some h =>
                 match get (deref h sanitized) key with
                 | VRef o =>
                     match sanitizeBody fuel' h o with
                     | Some (h', o') => Some (assign h' sanitized key (VRef o'))
                     | None => None
                     end
                 | _ => Some h
                 end
             end)
          (keys (deref h sanitized)) (Some h) in
      match after with
      | Some h => Some (h, sanitized)
      | None => None
      end
  end.

(** The body of the second loop, with [fuel] left for the calls. *)
Definition nested_step (fuel : nat) (sanitized : nat) (acc : option heap)
    (key : string) : option heap :=
  match acc with
  | None => None
  | Some h =>
      match get (deref h sanitized) key with
      | VRef o =>
          match sanitizeBody fuel h o with
          | Some (h', o') => Some (assign h' sanitized key (VRef o'))
          | None => None
          end
      | _ => Some h
      end
  end.

(** The object at [a] holds the object at [b] under a key that is not a
    sensitive name. *)
Definition edge (h : heap) (a b : nat) : Prop :=
  exists k, includes sensitiveFields k = false /\ get (deref h a) k = VRef b.

(** [b] is reached from [a] along one or more such fields. *)
Inductive reaches (h : heap) : nat -> nat -> Prop :=
| reaches_edge (a b : nat) : edge h a b -> reaches h a b
| reaches_trans (a b c : nat) : edge h a b -> reaches h b c -> reaches h a c.

(** Every object of [P] holds an object of [P]. *)
Definition closed (h : heap) (P : nat -> Prop) : Prop :=
  forall a, P a -> exists b, edge h a b /\ P b.

(** [h'] has the objects of [h] at their addresses, and at least one
    more. *)
Definition extends (h h' : heap) : Prop :=
  (List.length h < List.length h')%nat /\
  forall i, (i < List.length h)%nat -> deref h' i = deref h i.

(** [const body = { name: 'test' }; body.self = body], alone on the heap
    at address 0; the body of the test "should handle circular
    references". *)
Definition circular_body : object := [("name", VStr "test"); ("self", VRef 0)].

Definition circular_heap : heap := [circular_body].

(** The marker the tests expect in the cyclic slot. *)
Definition circular_marker : object := [("[Circular]", VBool true)].

End Cyclic.

(** ** Further vocabulary for the properties *)

Module TenantFacts.

(** [s] holds a dot. *)
Fixpoint has_dot (s : string) : bool :=
  match s with
  | EmptyString => false
  | String c rest => Ascii.eqb c "."%char || has_dot rest
  end.

End TenantFacts.

(** ** CurrentUser (common/decorators/current-user.decorator.ts) *)

Module CurrentUserDecorator.

(** [AuthenticatedUser] of interfaces/jwt-payload.interface.ts. *)
Record AuthenticatedUser : Type :=
  { userId : string;
    email : string;
    tenantId : option string;
    roles : list string }.

(** [keyof AuthenticatedUser]. *)
Inductive Key : Type := K_userId | K_email | K_tenantId | K_roles.

(** The value of one field; [FUndefined] for a missing [tenantId]. *)
Inductive FieldValue : Type :=
| FString (s : string)
| FRoles (rs : list string)
| FUndefined.

(** [user[data]]. *)
Definition field (user : AuthenticatedUser) (data : Key) : FieldValue :=
  match data with
  | K_userId => FString (userId user)
  | K_email => FString (email user)
  | K_tenantId =>
      match tenantId user with Some t => FString t | None => FUndefined end
  | K_roles => FRoles (roles user)
  end.

(** What the decorator hands to the handler. *)
Inductive Extracted : Type :=
| Null
| Whole (user : AuthenticatedUser)
| Field (v : FieldValue).

(** The factory of the decorator; [request_user] is [request.user], [None]
    when falsy, and [data] the decorator's argument. *)
Definition CurrentUser (data : option Key)
    (request_user : option AuthenticatedUser) : Extracted :=
  match request_user with
  | None => Null
  | Some user =>
      match data with
      | Some k => Field (field user k)
      | None => Whole user
      end
  end.

(** The part of the identity that [RolesGuard] reads. *)
Definition as_roles_user (user : AuthenticatedUser) : Roles.User :=
  {| Roles.roles := Some (roles user) |}.

End CurrentUserDecorator.

(** ** Further vocabulary for the properties of the logger *)

Module LoggerFacts.
Import Logger.

(** No mapping of the structure, arrays left aside, holds a truthy value
    under a sensitive name; [k] is the name [v] is held under. *)
Fixpoint clean_value (k : string) (v : value) : bool :=
  negb (includes sensitiveFields k && truthy v) &&
  match v with
  | VObj o =>
      (fix all (ps : list (string * value)) : bool :=
         match ps with
         | [] => true
         | (k', x) :: rest => clean_value k' x && all rest
         end) o
  | _ => true
  end.

Fixpoint clean_props (ps : object) : bool :=
  match ps with
  | [] => true
  | (k, x) :: rest => clean_value k x && clean_props rest
  end.

(** No BigInt anywhere in the structure, arrays included. *)
Fixpoint bigint_free (v : value) : bool :=
  match v with
  | VBigInt _ => false
  | VArr elems =>
      (fix all (xs : list value) : bool :=
         match xs with
         | [] => true
         | x :: rest => bigint_free x && all rest
         end) elems
  | VObj o =>
      (fix all (ps : list (string * value)) : bool :=
         match ps with
         | [] => true
         | (_, x) :: rest => bigint_free x && all rest
         end) o
  | _ => true
  end.

(** The serialisation of the elements of an array, in order. *)
Fixpoint serialize_items (xs : list value) : result JsException (list string) :=
  match xs with
  | [] => Ok []
  | x :: rest =>
      match serialize x with
      | Throw e => Throw e
      | Ok sx =>
          match serialize_items rest with
          | Throw e => Throw e
          | Ok srest =>
              Ok (match sx with Some t => t | None => "null" end :: srest)
          end
      end
  end.

(** The serialisation of the members of an object, in order. *)
Fixpoint serialize_members (ps : object) : result JsException (list string) :=
  match ps with
  | [] => Ok []
  | (k, x) :: rest =>
      match serialize x with
      | Throw e => Throw e
      | Ok sx =>
          match serialize_members rest with
          | Throw e => Throw e
          | Ok srest =>
              Ok (match sx with
                  | Some t => (quote k ++ ":" ++ t) :: srest
                  | None => srest
                  end)
          end
      end
  end.

(** Whether the value is a mapping. *)
Definition is_mapping (v : value) : bool :=
  match v with VObj _ => true | _ => false end.


(** The incoming line of [use]. *)
Definition incoming_line (req : Request) : LogLine :=
  {| level := LOG;
     text := "[" ++ or_else (requestId req) "no-request-id" ++ "] Incoming: "
             ++ method req ++ " " ++ originalUrl req ++ " - UserAgent: "
             ++ or_else (user_agent req) "unknown" |}.

End LoggerFacts.

(** * Properties *)

(** ** Strings and truthiness *)

Lemma includes_In (xs : list string) (x : string) :
  includes xs x = true <-> In x xs.
Proof.
  unfold includes. rewrite existsb_exists. split.
  - intros [y [Hy He]]. apply String.eqb_eq in He. now subst.
  - intros H. exists x. split; [assumption | apply String.eqb_refl].
Qed.

Lemma includes_not_In (xs : list string) (x : string) :
  includes xs x = false <-> ~ In x xs.
Proof.
  rewrite <- includes_In. destruct (includes xs x); split; congruence.
Qed.

Lemma truthy_string_true (s : string) : truthy_string s = true <-> s <> "".
Proof.
  unfold truthy_string. rewrite negb_true_iff. apply String.eqb_neq.
Qed.

Lemma if_truthy_Some (s : string) : s <> "" -> if_truthy (Some s) = Some s.
Proof.
  intros H. apply truthy_string_true in H. unfold if_truthy. now rewrite H.
Qed.

Lemma if_truthy_inv (x : option string) (s : string) :
  if_truthy x = Some s -> x = Some s /\ s <> "".
Proof.
  destruct x as [t|]; simpl; [|discriminate].
  destruct (truthy_string t) eqn:E; [|discriminate].
  intros [= <-]. split; [reflexivity | now apply truthy_string_true].
Qed.

Lemma append_assoc (s t u : string) : (s ++ t) ++ u = s ++ (t ++ u).
Proof.
  induction s as [|c s IH]; simpl; [reflexivity | now rewrite IH].
Qed.

Lemma prefix_app (s t : string) : prefix s (s ++ t) = true.
Proof.
  induction s as [|c s IH]; simpl.
  - now destruct t.
  - destruct (ascii_dec c c) as [_|N]; [exact IH | now elim N].
Qed.

Lemma prefix_inv (s u : string) :
  prefix s u = true -> exists t, u = s ++ t.
Proof.
  revert u. induction s as [|c s IH]; intros u H.
  - exists u. reflexivity.
  - destruct u as [|d u]; simpl in H; [discriminate|].
    destruct (ascii_dec c d) as [->|_]; [|discriminate].
    destruct (IH _ H) as [t ->]. now exists t.
Qed.

(** ** AuthenticationGate *)

Section AuthenticationGate.
Import JwtAuth.

(** C4. When the validator's outcome raises several failure signals at
    once, [handleRequest] rejects with the first kind of the order
    TOKEN_EXPIRED > INVALID_TOKEN > TOKEN_MISSING > UNAUTHORIZED whose
    signal is raised, with that kind's message ('Token has expired',
    'Invalid token', 'Authentication token is required', 'Unauthorized
    access'), and returns the identity only when no signal is raised.  Case
    by case: a TokenExpiredError gives TOKEN_EXPIRED whatever its message,
    the error and the identity are; a JsonWebTokenError or NotBeforeError
    gives INVALID_TOKEN whatever its message, the error and the identity
    are; a plain Error 'No auth token' gives TOKEN_MISSING whatever the error
    and the identity are; without any of these, an error or a missing
    identity gives UNAUTHORIZED (so does the absence of error, identity and
    info), and otherwise the identity is returned. *)
Theorem handleRequest_precedence :
  forall (T : Type) (err : option JsError) (user : option T)
         (info : option JsError) (rid : option string),
    match selected err user info with
    | Some c =>
        handleRequest err user info rid =
        Throw {| rej_message := message_of c; rej_code := c;
                 rej_requestId := or_else rid "no-request-id" |}
    | None =>
        exists u, user = Some u /\ handleRequest err user info rid = Ok u
    end
    /\ (forall msg,
           handleRequest err user
             (Some {| cls := ClsTokenExpiredError; message := msg |}) rid =
           Throw {| rej_message := "Token has expired";
                    rej_code := TOKEN_EXPIRED;
                    rej_requestId := or_else rid "no-request-id" |})
    /\ handleRequest None (@None T) None rid =
       Throw {| rej_message := "Unauthorized access";
                rej_code := UNAUTHORIZED;
                rej_requestId := or_else rid "no-request-id" |}
    /\ (forall msg,
           handleRequest err user
             (Some {| cls := ClsJsonWebTokenError; message := msg |}) rid =
           Throw {| rej_message := "Invalid token";
                    rej_code := INVALID_TOKEN;
                    rej_requestId := or_else rid "no-request-id" |}
           /\ handleRequest err user
                (Some {| cls := ClsNotBeforeError; message := msg |}) rid =
              Throw {| rej_message := "Invalid token";
                       rej_code := INVALID_TOKEN;
                       rej_requestId := or_else rid "no-request-id" |})
    /\ handleRequest err user
         (Some {| cls := ClsError; message := "No auth token" |}) rid =
       Throw {| rej_message := "Authentication token is required";
                rej_code := TOKEN_MISSING;
                rej_requestId := or_else rid "no-request-id" |}
    /\ (info = None
        \/ (exists msg, info = Some {| cls := ClsError; message := msg |}
                        /\ msg <> "No auth token") ->
        (err <> None \/ user = None ->
         handleRequest err user info rid =
         Throw {| rej_message := "Unauthorized access";
                  rej_code := UNAUTHORIZED;
                  rej_requestId := or_else rid "no-request-id" |})
        /\ (forall u, err = None -> user = Some u ->
                      handleRequest err user info rid = Ok u)).
Proof.
  intros T err user info rid.
  split; [|split; [|split; [|split; [|split]]]].
  - unfold selected, precedence. cbn [find]. unfold signals.
    unfold handleRequest, info_instanceof, info_message_is, instanceof.
    destruct info as [[c m]|]; [destruct c|]; cbn [cls message];
      cbv beta iota; try reflexivity;
      try (destruct (m =? "No auth token"); [reflexivity|]);
      destruct err as [e|], user as [u|]; try reflexivity;
      exists u; split; reflexivity.
  - intros msg. reflexivity.
  - reflexivity.
  - intros msg. split; reflexivity.
  - reflexivity.
  - intros Hinfo.
    assert (E : handleRequest err user info rid =
                match err, user with
                | None, Some u => Ok u
                | _, _ =>
                    Throw {| rej_message := "Unauthorized access";
                             rej_code := UNAUTHORIZED;
                             rej_requestId := or_else rid "no-request-id" |}
                end).
    { destruct Hinfo as [->|[msg [-> Hm]]]; [reflexivity|].
      unfold handleRequest, info_instanceof, info_message_is, instanceof.
      cbn [cls message]. cbv beta iota.
      apply String.eqb_neq in Hm. now rewrite Hm. }
    rewrite E. split.
    + intros [He|Hu].
      * destruct err; [reflexivity | contradiction].
      * subst user. now destruct err.
    + intros u -> ->. reflexivity.
Qed.

(** The cases of the repository's tests: 'No auth token' with an identity
    present is TOKEN_MISSING; a JsonWebTokenError outranks its own message
    'No auth token' and an error; a message in another case is no signal,
    so that the identity is returned or, with an error, the request is
    unauthorized. *)
Lemma handleRequest_precedence_witness :
  handleRequest None (Some 7)
    (Some {| cls := ClsError; message := "No auth token" |}) (Some "r1") =
  Throw {| rej_message := "Authentication token is required";
           rej_code := TOKEN_MISSING; rej_requestId := "r1" |}
  /\ handleRequest (Some {| cls := ClsError; message := "boom" |}) (Some 7)
       (Some {| cls := ClsJsonWebTokenError; message := "No auth token" |})
       None =
     Throw {| rej_message := "Invalid token";
              rej_code := INVALID_TOKEN; rej_requestId := "no-request-id" |}
  /\ handleRequest (Some {| cls := ClsError; message := "boom" |}) (Some 7)
       (Some {| cls := ClsError; message := "no auth token" |}) None =
     Throw {| rej_message := "Unauthorized access";
              rej_code := UNAUTHORIZED; rej_requestId := "no-request-id" |}
  /\ handleRequest None (Some 7)
       (Some {| cls := ClsError; message := "no auth token" |}) None = Ok 7.
Proof.
  split; [|split; [|split]].
  - destruct (handleRequest_precedence None (Some 7) None (Some "r1"))
      as [_ [_ [_ [_ [H _]]]]].
    exact H.
  - destruct (handleRequest_precedence
                (Some {| cls := ClsError; message := "boom" |}) (Some 7)
                None None) as [_ [_ [_ [H _]]]].
    exact (proj1 (H "No auth token")).
  - destruct (handleRequest_precedence
                (Some {| cls := ClsError; message := "boom" |}) (Some 7)
                (Some {| cls := ClsError; message := "no auth token" |}) None)
      as [_ [_ [_ [_ [_ H]]]]].
    apply H.
    + right. exists "no auth token". split; [reflexivity | discriminate].
    + left. discriminate.
  - destruct (handleRequest_precedence None (Some 7)
                (Some {| cls := ClsError; message := "no auth token" |}) None)
      as [_ [_ [_ [_ [_ H]]]]].
    apply H.
    + right. exists "no auth token". split; [reflexivity | discriminate].
    + reflexivity.
    + reflexivity.
Defined.

End AuthenticationGate.

(** ** AuthorizationGate *)

Section AuthorizationGate.
Import Roles.

Lemma hasRole_exists (required userRoles : list string) :
  existsb (fun r => includes userRoles r) required = true <->
  exists r, In r required /\ In r userRoles.
Proof.
  rewrite existsb_exists. split; intros [r [H1 H2]]; exists r;
    (split; [assumption | now apply includes_In]).
Qed.

(** C8. An absent or empty role requirement allows the request; a
    non-empty one without an identity rejects with USER_NOT_FOUND and 'User
    not Authenticated'; otherwise the request is allowed exactly when some
    required role is among the roles the identity declares (none when it
    declares no role list), and is else rejected with INSUFFICIENT_ROLES,
    'Insufficient permissions' and both role lists as they were given. *)
Theorem roles_canActivate_spec :
  forall (user : option User) (rid : option string),
    canActivate None user rid = Ok true
    /\ canActivate (Some []) user rid = Ok true
    /\ (forall r rs,
           canActivate (Some (r :: rs)) None rid =
           Throw {| rej_message := "User not Authenticated";
                    rej_code := USER_NOT_FOUND;
                    rej_requiredRoles := None;
                    rej_userRoles := None;
                    rej_requestId := or_else rid "no-request-id" |})
    /\ (forall r rs u,
           (canActivate (Some (r :: rs)) (Some u) rid = Ok true <->
            exists x, In x (r :: rs) /\ In x (roles_of u))
           /\ (canActivate (Some (r :: rs)) (Some u) rid = Ok true
               \/ canActivate (Some (r :: rs)) (Some u) rid =
                  Throw {| rej_message := "Insufficient permissions";
                           rej_code := INSUFFICIENT_ROLES;
                           rej_requiredRoles := Some (r :: rs);
                           rej_userRoles := Some (roles_of u);
                           rej_requestId := or_else rid "no-request-id" |}))
    /\ (forall r rs (declared : list string),
           (canActivate (Some (r :: rs)) (Some {| roles := Some declared |}) rid
            = Ok true
            <-> exists x, In x (r :: rs) /\ In x declared)
           /\ (~ (exists x, In x (r :: rs) /\ In x declared) ->
               canActivate (Some (r :: rs)) (Some {| roles := Some declared |})
                 rid =
               Throw {| rej_message := "Insufficient permissions";
                        rej_code := INSUFFICIENT_ROLES;
                        rej_requiredRoles := Some (r :: rs);
                        rej_userRoles := Some declared;
                        rej_requestId := or_else rid "no-request-id" |}))
    /\ (forall r rs,
           canActivate (Some (r :: rs)) (Some {| roles := None |}) rid =
           Throw {| rej_message := "Insufficient permissions";
                    rej_code := INSUFFICIENT_ROLES;
                    rej_requiredRoles := Some (r :: rs);
                    rej_userRoles := Some [];
                    rej_requestId := or_else rid "no-request-id" |}).
Proof.
  intros user rid.
  assert (Main : forall r rs u,
    (canActivate (Some (r :: rs)) (Some u) rid = Ok true <->
     exists x, In x (r :: rs) /\ In x (roles_of u))
    /\ (canActivate (Some (r :: rs)) (Some u) rid = Ok true
        \/ canActivate (Some (r :: rs)) (Some u) rid =
           Throw {| rej_message := "Insufficient permissions";
                    rej_code := INSUFFICIENT_ROLES;
                    rej_requiredRoles := Some (r :: rs);
                    rej_userRoles := Some (roles_of u);
                    rej_requestId := or_else rid "no-request-id" |})).
  { intros r rs u. unfold canActivate.
    rewrite <- hasRole_exists.
    destruct (existsb (fun x => includes (roles_of u) x) (r :: rs)); simpl.
    - split; [tauto | now left].
    - split; [split; discriminate | now right]. }
  split; [reflexivity|]. split; [reflexivity|]. split; [reflexivity|].
  split; [exact Main|]. split.
  - intros r rs declared.
    destruct (Main r rs {| roles := Some declared |}) as [Hiff Hor].
    cbn [roles_of roles] in Hiff, Hor. split; [exact Hiff|].
    intros Hno. destruct Hor as [Hok|Hrej]; [|exact Hrej].
    exfalso. apply Hno. now apply Hiff.
  - intros r rs.
    destruct (Main r rs {| roles := None |}) as [Hiff Hor].
    cbn [roles_of roles] in Hiff, Hor.
    destruct Hor as [Hok|Hrej]; [|exact Hrej].
    apply Hiff in Hok. destruct Hok as [x [_ []]].
Qed.

(** The scenarios of the specification: required ["admin"] with user roles
    ["user","admin"] is allowed; required ["admin","superadmin"] with user
    roles ["user","editor"] is rejected with both lists as given. *)
Lemma roles_canActivate_spec_witness :
  canActivate (Some ["admin"]) (Some {| roles := Some ["user"; "admin"] |})
    (Some "r1") = Ok true
  /\ canActivate (Some ["admin"; "superadmin"])
       (Some {| roles := Some ["user"; "editor"] |}) (Some "r1") =
     Throw {| rej_message := "Insufficient permissions";
              rej_code := INSUFFICIENT_ROLES;
              rej_requiredRoles := Some ["admin"; "superadmin"];
              rej_userRoles := Some ["user"; "editor"];
              rej_requestId := "r1" |}.
Proof.
  destruct (roles_canActivate_spec None (Some "r1"))
    as [_ [_ [_ [_ [H _]]]]].
  split.
  - apply (proj1 (H "admin" [] ["user"; "admin"])).
    exists "admin". split; simpl; tauto.
  - apply (proj2 (H "admin" ["superadmin"] ["user"; "editor"])).
    intros [x [[<-|[<-|[]]] [E|[E|[]]]]]; discriminate E.
Defined.

End AuthorizationGate.

(** ** FeatureGate *)

Section FeatureGate.
Import FeatureFlag.

(** C7, amended. An absent feature requirement (no metadata, or the empty
    string, which the guard takes for none) allows the request; a non-empty
    flag outside the enabled set is rejected with FEATURE_DISABLED whatever
    the tenant; for
    an enabled flag, a tenant on the flag's exclusion list is rejected with
    FEATURE_DISABLED, and every tenant not on the list, as well as an absent
    tenant, is allowed. *)
Theorem feature_canActivate_spec :
  forall (flag : string) (tc : option Tenant.TenantContext) (rid : option string),
    (canActivate None tc rid = Ok true /\ canActivate (Some "") tc rid = Ok true)
    /\ (flag <> "" -> ~ In flag enabledFeatures ->
        canActivate (Some flag) tc rid =
        Throw {| rej_message := "Feature not available";
                 rej_code := FEATURE_DISABLED;
                 rej_feature := flag;
                 rej_requestId := or_else rid "no-request-id" |})
    /\ (In flag enabledFeatures ->
        canActivate (Some flag) None rid = Ok true)
    /\ (In flag enabledFeatures ->
        forall t excluded,
          tc = Some t ->
          lookup_disabled disabledForTenants flag = Some excluded ->
          In (Tenant.tenantId t) excluded ->
          canActivate (Some flag) tc rid =
          Throw {| rej_message := "Feature not available";
                   rej_code := FEATURE_DISABLED;
                   rej_feature := flag;
                   rej_requestId := or_else rid "no-request-id" |})
    /\ (In flag enabledFeatures ->
        forall t,
          tc = Some t ->
          (forall excluded,
              lookup_disabled disabledForTenants flag = Some excluded ->
              ~ In (Tenant.tenantId t) excluded) ->
          canActivate (Some flag) tc rid = Ok true).
Proof.
  intros flag tc rid.
  assert (Hen : forall f, In f enabledFeatures -> f <> "").
  { intros f [<-|[<-|[]]]; discriminate. }
  split; [split; reflexivity|]. split; [|split; [|split]].
  - intros Hne Hout. unfold canActivate. rewrite (if_truthy_Some Hne).
    unfold isFeatureEnabled.
    apply includes_not_In in Hout. now rewrite Hout.
  - intros Hin. unfold canActivate. rewrite (if_truthy_Some (Hen _ Hin)).
    unfold isFeatureEnabled. apply includes_In in Hin. now rewrite Hin.
  - intros Hin t excluded -> Hl Hex. unfold canActivate.
    rewrite (if_truthy_Some (Hen _ Hin)). unfold isFeatureEnabled.
    pose proof Hin as Hin'. apply includes_In in Hin'. rewrite Hin'.
    cbn [negb option_map].
    assert (Ht : Tenant.tenantId t <> "").
    { destruct Hin as [<-|[<-|[]]]; simpl in Hl; [discriminate|].
      injection Hl as <-. destruct Hex as [<-|[]]. discriminate. }
    rewrite (if_truthy_Some Ht), Hl.
    apply includes_In in Hex. now rewrite Hex.
  - intros Hin t -> Hnot. unfold canActivate.
    rewrite (if_truthy_Some (Hen _ Hin)). unfold isFeatureEnabled.
    apply includes_In in Hin. rewrite Hin. cbn [negb option_map].
    destruct (if_truthy (Some (Tenant.tenantId t))) as [t'|] eqn:Et;
      [|reflexivity].
    apply if_truthy_inv in Et. destruct Et as [[= <-] _].
    destruct (lookup_disabled disabledForTenants flag) as [ex|] eqn:El;
      [|reflexivity].
    specialize (Hnot ex eq_refl). apply includes_not_In in Hnot.
    now rewrite Hnot.
Qed.

(** The scenario of the specification: beta-reports is enabled, switched
    off for tenant-123, on for tenant-456 and for a request without tenant;
    an unknown flag is rejected. *)
Lemma feature_canActivate_spec_witness :
  canActivate (Some "beta-reports") (Some (in_tenant "tenant-123")) None =
  Throw {| rej_message := "Feature not available";
           rej_code := FEATURE_DISABLED;
           rej_feature := "beta-reports";
           rej_requestId := "no-request-id" |}
  /\ canActivate (Some "beta-reports") (Some (in_tenant "tenant-456")) None = Ok true
  /\ canActivate (Some "beta-reports") None None = Ok true
  /\ canActivate (Some "unknown-flag") (Some (in_tenant "tenant-456")) None =
     Throw {| rej_message := "Feature not available";
              rej_code := FEATURE_DISABLED;
              rej_feature := "unknown-flag";
              rej_requestId := "no-request-id" |}.
Proof.
  split; [|split; [|split]].
  - apply (proj1 (proj2 (proj2 (proj2
      (feature_canActivate_spec "beta-reports"
         (Some (in_tenant "tenant-123")) None))))
      (or_intror (or_introl eq_refl))
      (in_tenant "tenant-123") ["tenant-123"] eq_refl eq_refl
      (or_introl eq_refl)).
  - apply (proj2 (proj2 (proj2 (proj2
      (feature_canActivate_spec "beta-reports"
         (Some (in_tenant "tenant-456")) None))))
      (or_intror (or_introl eq_refl))
      (in_tenant "tenant-456") eq_refl).
    intros excluded [= <-] [H|[]]. discriminate H.
  - apply (proj1 (proj2 (proj2
      (feature_canActivate_spec "beta-reports" None None)))
      (or_intror (or_introl eq_refl))).
  - apply (proj1 (proj2
      (feature_canActivate_spec "unknown-flag"
         (Some (in_tenant "tenant-456")) None))).
    + discriminate.
    + intros [H|[H|[]]]; discriminate H.
Defined.

(** C7 as stated fails for the requirement that is the empty string: it is
    a flag that is not in the enabled set, and the gate allows the request
    instead of rejecting it with FEATURE_DISABLED. *)
Lemma empty_flag_is_allowed :
  ~ In "" enabledFeatures
  /\ canActivate (Some "") (Some (in_tenant "tenant-456")) None = Ok true
  /\ canActivate (Some "") (Some (in_tenant "tenant-456")) None <>
     Throw {| rej_message := "Feature not available";
              rej_code := FEATURE_DISABLED;
              rej_feature := "";
              rej_requestId := "no-request-id" |}.
Proof.
  split; [intros [H|[H|[]]]; discriminate H|].
  split; [reflexivity | discriminate].
Qed.

End FeatureGate.

(** ** TenantResolver *)

Section TenantResolver.
Import Tenant.

Lemma isExcludedPath_iff (path : string) :
  isExcludedPath path = true <->
  exists e, In e excludedPaths /\
            (path = e \/ exists rest, path = e ++ "/" ++ rest).
Proof.
  unfold isExcludedPath. rewrite existsb_exists. split.
  - intros [e [Hin H]]. exists e. split; [assumption|].
    apply orb_true_iff in H. destruct H as [H|H].
    + left. now apply String.eqb_eq.
    + right. apply prefix_inv in H. destruct H as [t ->].
      exists t. now rewrite append_assoc.
  - intros [e [Hin [->|[rest ->]]]]; exists e; (split; [assumption|]).
    + now rewrite String.eqb_refl.
    + rewrite <- append_assoc, prefix_app. apply orb_true_r.
Qed.

Lemma use_resolution (d : option string) (req : Request)
    (next : NextFunction) :
  isExcludedPath (originalUrl req) = false ->
  use d req next =
  match extractTenantContext d req with
  | Ok (Some tc) =>
      if header_value_ok (tenantId tc) then forwarded req next (resolved tc)
      else Throw (BadRequestException (bad_request req invalid_header_content))
  | Ok None => forwarded req next skipped
  | Throw msg => Throw (BadRequestException (bad_request req msg))
  end.
Proof.
  intros Hex. unfold use, setHeader_x_tenant_id, forwarded. rewrite Hex.
  destruct (extractTenantContext d req) as [[tc|]|msg]; [| |reflexivity].
  - destruct (header_value_ok (tenantId tc)); [|reflexivity].
    now destruct next as [[]|[m|]].
  - now destruct next as [[]|[m|]].
Qed.

Lemma use_of_context (d : option string) (req : Request)
    (next : NextFunction) (tc : TenantContext) :
  isExcludedPath (originalUrl req) = false ->
  extractTenantContext d req = Ok (Some tc) ->
  use d req next =
  if header_value_ok (tenantId tc) then forwarded req next (resolved tc)
  else Throw (BadRequestException (bad_request req invalid_header_content)).
Proof.
  intros Hex E. rewrite (use_resolution d req next Hex). now rewrite E.
Qed.

(** A run of [use] that returns: [next()] returned, and either the path is
    excluded and nothing was resolved, or the resolution returned, and the
    tenant id, if there is one, was accepted as a header value. *)
Lemma use_returns_inv (d : option string) (req : Request)
    (next : NextFunction) (o : Outcome) :
  use d req next = Ok o ->
  next = Ok tt
  /\ ((isExcludedPath (originalUrl req) = true /\ o = skipped)
      \/ (isExcludedPath (originalUrl req) = false
          /\ exists context,
               extractTenantContext d req = Ok context
               /\ o = {| req_tenantContext := context;
                         res_x_tenant_id := option_map tenantId context;
                         next_called := true |}
               /\ forall tc, context = Some tc ->
                             header_value_ok (tenantId tc) = true)).
Proof.
  unfold use. destruct (isExcludedPath (originalUrl req)).
  - destruct next as [[]|t]; [|discriminate].
    intros [= <-]. split; [reflexivity|]. now left.
  - destruct (extractTenantContext d req) as [context|msg]; [|discriminate].
    intros H.
    assert (Hh : forall tc, context = Some tc ->
                            header_value_ok (tenantId tc) = true).
    { intros tc ->. unfold setHeader_x_tenant_id in H.
      destruct (header_value_ok (tenantId tc)); [reflexivity|discriminate]. }
    destruct (match context with
              | Some context0 => setHeader_x_tenant_id (tenantId context0)
              | None => Ok tt
              end); [|discriminate].
    destruct next as [[]|t]; [|discriminate].
    injection H as <-. split; [reflexivity|]. right.
    split; [reflexivity|]. exists context. now split.
Qed.

(** C6. For a path equal to one of /health, /api/public and
    /api/auth/register, or starting with one of them followed by '/', [use]
    skips resolution: it stores no tenant context, raises no error of its
    own (it ends as [next()] ends, even for a request without hostname) and
    sets no x-tenant-id response header.  /healthcheck and /api/auth/login
    are not excluded: [use] resolves the tenant for them, stores what was
    resolved and, when there is a tenant, writes the response header (which
    throws when Node refuses the tenant id as a header value). *)
Theorem excluded_paths_skip_resolution :
  forall (d : option string) (req : Request) (next : NextFunction),
    ((exists e, In e excludedPaths /\
                (originalUrl req = e \/
                 exists rest, originalUrl req = e ++ "/" ++ rest)) ->
     use d req next =
     match next with
     | Ok _ => Ok skipped
     | Throw error => Throw (Uncaught error)
     end)
    /\ (originalUrl req = "/healthcheck" \/ originalUrl req = "/api/auth/login" ->
        isExcludedPath (originalUrl req) = false
        /\ use d req next =
           match extractTenantContext d req with
           | Ok (Some tc) =>
               if header_value_ok (tenantId tc)
               then forwarded req next (resolved tc)
               else
                 Throw (BadRequestException
                   {| bad_message := "Unable to determine tenant context";
                      bad_requestId := or_else (requestId req) "no-request-id";
                      bad_error := invalid_header_content |})
           | Ok None => forwarded req next skipped
           | Throw msg =>
               Throw (BadRequestException
                 {| bad_message := "Unable to determine tenant context";
                    bad_requestId := or_else (requestId req) "no-request-id";
                    bad_error := msg |})
           end).
Proof.
  intros d req next. split.
  - intros H. apply isExcludedPath_iff in H. unfold use. rewrite H.
    now destruct next.
  - intros H.
    assert (E : isExcludedPath (originalUrl req) = false)
      by (destruct H as [-> | ->]; reflexivity).
    split; [exact E|]. exact (use_resolution d req next E).
Qed.

Lemma excluded_paths_skip_resolution_witness :
  use (Some "fallback")
      {| originalUrl := "/health/x"; hostname := None;
         x_tenant_id := HString "t1"; requestId := None |} returns = Ok skipped
  /\ use (Some "fallback")
         {| originalUrl := "/healthcheck"; hostname := Some "acme.example.com";
            x_tenant_id := HAbsent; requestId := None |} returns =
     Ok (resolved {| tenantId := "acme"; subdomain := Some "acme";
                     source := subdomain_source |}).
Proof.
  split.
  - apply (proj1 (excluded_paths_skip_resolution (Some "fallback")
             {| originalUrl := "/health/x"; hostname := None;
                x_tenant_id := HString "t1"; requestId := None |} returns)).
    exists "/health". split; [simpl; tauto|]. right. now exists "x".
  - apply (proj2 (proj2 (excluded_paths_skip_resolution (Some "fallback")
             {| originalUrl := "/healthcheck"; hostname := Some "acme.example.com";
                x_tenant_id := HAbsent; requestId := None |} returns)
             (or_introl eq_refl))).
Defined.

Lemma reserved_first_label (h sub : string) (rest : list string) :
  split_dot h = sub :: rest -> In sub ignoredSubdomains ->
  extractSubdomain (Some h) = Ok None.
Proof.
  intros Hs Hin. unfold extractSubdomain.
  destruct ((h =? "localhost") || is_ipv4 h); [reflexivity|].
  rewrite Hs. simpl hd. apply includes_In in Hin. rewrite Hin.
  now destruct (3 <=? List.length (sub :: rest))%nat.
Qed.

Lemma tenant_first_label (h sub : string) (rest : list string) :
  is_ipv4 h = false -> split_dot h = sub :: rest ->
  (2 <= List.length rest)%nat -> ~ In sub ignoredSubdomains ->
  extractSubdomain (Some h) = Ok (Some sub).
Proof.
  intros Hip Hs Hlen Hout. unfold extractSubdomain.
  assert (Hl : (h =? "localhost") = false).
  { apply String.eqb_neq. intros ->. simpl in Hs.
    injection Hs as _ <-. simpl in Hlen. lia. }
  rewrite Hl, Hip, Hs. simpl orb. cbv iota.
  assert (Hn : (3 <=? List.length (sub :: rest))%nat = true)
    by (apply Nat.leb_le; simpl; lia).
  rewrite Hn. simpl hd. apply includes_not_In in Hout. now rewrite Hout.
Qed.

(** C5, amended. For a request whose path is not excluded: a non-empty
    x-tenant-id header (its first element when it is an array) gives
    tenant = header value with source header, whatever the hostname and the
    default are; without the header, a non-empty first label that is not
    reserved, of a hostname of at least three labels that is not an IPv4
    address, gives tenant = that label with source subdomain, whatever the
    default is; without the header and with a reserved first label (www,
    api, admin, app), a non-empty configured default gives source default.
    In each case this is the context [extractTenantContext] returns; [use]
    then stores it, sets the response header and calls [next()] when Node
    accepts the tenant id as a header value, and throws its
    BadRequestException when Node refuses it. *)
Theorem tenant_resolution_precedence :
  forall (d : option string) (req : Request) (next : NextFunction),
    isExcludedPath (originalUrl req) = false ->
    (forall s,
        (x_tenant_id req = HString s /\ s <> "") \/
        (exists rest, x_tenant_id req = HArray s rest) ->
        extractTenantContext d req =
        Ok (Some {| tenantId := s; subdomain := None; source := header_source |}))
    /\ (forall h sub rest,
           x_tenant_id req = HAbsent ->
           hostname req = Some h ->
           is_ipv4 h = false ->
           split_dot h = sub :: rest ->
           (2 <= List.length rest)%nat ->
           sub <> "" ->
           ~ In sub ignoredSubdomains ->
           extractTenantContext d req =
           Ok (Some {| tenantId := sub; subdomain := Some sub;
                       source := subdomain_source |}))
    /\ (forall h sub rest dt,
           x_tenant_id req = HAbsent ->
           hostname req = Some h ->
           split_dot h = sub :: rest ->
           In sub ignoredSubdomains ->
           d = Some dt ->
           dt <> "" ->
           extractTenantContext d req =
           Ok (Some {| tenantId := dt; subdomain := None;
                       source := default_source |}))
    /\ (forall tc,
           extractTenantContext d req = Ok (Some tc) ->
           use d req next =
           if header_value_ok (tenantId tc)
           then forwarded req next
                  {| req_tenantContext := Some tc;
                     res_x_tenant_id := Some (tenantId tc);
                     next_called := true |}
           else Throw (BadRequestException
                  {| bad_message := "Unable to determine tenant context";
                     bad_requestId := or_else (requestId req) "no-request-id";
                     bad_error := invalid_header_content |})).
Proof.
  intros d req next Hex.
  split; [|split; [|split]].
  - intros s H.
    unfold extractTenantContext.
    destruct H as [[-> Hs]|[rest ->]]; simpl.
    + apply truthy_string_true in Hs. now rewrite Hs.
    + reflexivity.
  - intros h sub rest Ha Hh Hip Hs Hlen Hne Hout.
    unfold extractTenantContext. rewrite Ha, Hh. simpl header_truthy.
    cbv iota. rewrite (@tenant_first_label h sub rest Hip Hs Hlen Hout).
    now rewrite (if_truthy_Some Hne).
  - intros h sub rest dt Ha Hh Hs Hin -> Hne.
    unfold extractTenantContext. rewrite Ha, Hh. simpl header_truthy.
    cbv iota. rewrite (@reserved_first_label h sub rest Hs Hin).
    simpl if_truthy at 1. now rewrite (if_truthy_Some Hne).
  - intros tc E. exact (@use_of_context d req next tc Hex E).
Qed.

(** The scenarios of the specification: a header list ["t1","t2"] on
    tenant.example.com gives t1 from the header; acme.example.com without
    header gives acme from the subdomain although a default is configured;
    www.example.com without header gives the configured default. *)
Lemma tenant_resolution_precedence_witness :
  extractTenantContext (Some "fallback")
      {| originalUrl := "/api/content"; hostname := Some "tenant.example.com";
         x_tenant_id := HArray "t1" ["t2"]; requestId := None |} =
  Ok (Some {| tenantId := "t1"; subdomain := None; source := header_source |})
  /\ extractTenantContext (Some "fallback")
         {| originalUrl := "/api/content"; hostname := Some "acme.example.com";
            x_tenant_id := HAbsent; requestId := None |} =
     Ok (Some {| tenantId := "acme"; subdomain := Some "acme";
                 source := subdomain_source |})
  /\ extractTenantContext (Some "fallback")
         {| originalUrl := "/api/content"; hostname := Some "www.example.com";
            x_tenant_id := HAbsent; requestId := None |} =
     Ok (Some {| tenantId := "fallback"; subdomain := None;
                 source := default_source |})
  /\ use (Some "fallback")
         {| originalUrl := "/api/content"; hostname := Some "acme.example.com";
            x_tenant_id := HAbsent; requestId := None |} returns =
     Ok {| req_tenantContext :=
             Some {| tenantId := "acme"; subdomain := Some "acme";
                     source := subdomain_source |};
           res_x_tenant_id := Some "acme";
           next_called := true |}.
Proof.
  split; [|split; [|split]].
  - destruct (tenant_resolution_precedence (Some "fallback")
             {| originalUrl := "/api/content";
                hostname := Some "tenant.example.com";
                x_tenant_id := HArray "t1" ["t2"]; requestId := None |}
             returns eq_refl) as [H _].
    apply H. right. now exists ["t2"].
  - destruct (tenant_resolution_precedence (Some "fallback")
             {| originalUrl := "/api/content";
                hostname := Some "acme.example.com";
                x_tenant_id := HAbsent; requestId := None |}
             returns eq_refl) as [_ [H _]].
    apply (H "acme.example.com" "acme" ["example"; "com"]);
      [reflexivity | reflexivity | reflexivity | reflexivity
      | simpl; lia | discriminate
      | intros [E|[E|[E|[E|[]]]]]; discriminate E].
  - destruct (tenant_resolution_precedence (Some "fallback")
             {| originalUrl := "/api/content";
                hostname := Some "www.example.com";
                x_tenant_id := HAbsent; requestId := None |}
             returns eq_refl) as [_ [_ [H _]]].
    apply (H "www.example.com" "www" ["example"; "com"] "fallback");
      [reflexivity | reflexivity | reflexivity | simpl; tauto
      | reflexivity | discriminate].
  - destruct (tenant_resolution_precedence (Some "fallback")
             {| originalUrl := "/api/content";
                hostname := Some "acme.example.com";
                x_tenant_id := HAbsent; requestId := None |}
             returns eq_refl) as [_ [_ [_ H]]].
    apply (H {| tenantId := "acme"; subdomain := Some "acme";
                source := subdomain_source |}). reflexivity.
Defined.

(** C5 as stated fails for a header that is present and empty: on
    acme.example.com the tenant then comes from the subdomain, not from the
    header. *)
Lemma empty_header_does_not_win :
  x_tenant_id {| originalUrl := "/api/content";
                 hostname := Some "acme.example.com";
                 x_tenant_id := HString ""; requestId := None |} = HString ""
  /\ extractTenantContext None
       {| originalUrl := "/api/content";
          hostname := Some "acme.example.com";
          x_tenant_id := HString ""; requestId := None |} =
     Ok (Some {| tenantId := "acme"; subdomain := Some "acme";
                 source := subdomain_source |})
  /\ use None {| originalUrl := "/api/content";
                 hostname := Some "acme.example.com";
                 x_tenant_id := HString ""; requestId := None |} returns =
     Ok (resolved {| tenantId := "acme"; subdomain := Some "acme";
                     source := subdomain_source |})
  /\ use None {| originalUrl := "/api/content";
                 hostname := Some "acme.example.com";
                 x_tenant_id := HString ""; requestId := None |} returns <>
     Ok (resolved {| tenantId := ""; subdomain := None;
                     source := header_source |}).
Proof.
  split; [reflexivity|]. split; [reflexivity|]. split; [reflexivity|].
  discriminate.
Qed.

(** C10. A request whose x-tenant-id header is the empty string is
    resolved exactly as the same request without the header: the tenant
    comes from the subdomain, else from the configured default, and is never
    taken from the header. *)
Theorem empty_header_is_absent :
  forall (d : option string) (req : Request) (next : NextFunction),
    x_tenant_id req = HString "" ->
    use d req next = use d (without_header req) next
    /\ extractTenantContext d req =
       match extractSubdomain (hostname req) with
       | Throw e => Throw e
       | Ok sub =>
           match if_truthy sub, if_truthy d with
           | Some s, _ =>
               Ok (Some {| tenantId := s; subdomain := Some s;
                           source := subdomain_source |})
           | None, Some dt =>
               Ok (Some {| tenantId := dt; subdomain := None;
                           source := default_source |})
           | None, None => Ok None
           end
       end
    /\ (forall o tc,
           use d req next = Ok o -> req_tenantContext o = Some tc ->
           source tc <> header_source).
Proof.
  intros d req next Hh.
  assert (E : extractTenantContext d req =
              extractTenantContext d (without_header req)).
  { unfold extractTenantContext. rewrite Hh. reflexivity. }
  assert (E2 : extractTenantContext d req =
       match extractSubdomain (hostname req) with
       | Throw e => Throw e
       | Ok sub =>
           match if_truthy sub, if_truthy d with
           | Some s, _ =>
               Ok (Some {| tenantId := s; subdomain := Some s;
                           source := subdomain_source |})
           | None, Some dt =>
               Ok (Some {| tenantId := dt; subdomain := None;
                           source := default_source |})
           | None, None => Ok None
           end
       end).
  { unfold extractTenantContext. rewrite Hh. simpl header_truthy. cbv iota.
    destruct (extractSubdomain (hostname req)) as [sub|e]; [|reflexivity].
    destruct (if_truthy sub), (if_truthy d); reflexivity. }
  split; [|split].
  - unfold use. simpl originalUrl. rewrite <- E. reflexivity.
  - exact E2.
  - intros o tc Hu Htc.
    destruct (use_returns_inv _ _ _ Hu) as [_ [[_ ->]|[_ [context [Ec [-> _]]]]]];
      [discriminate Htc|].
    cbn in Htc. subst context. rewrite E2 in Ec.
    destruct (extractSubdomain (hostname req)) as [sub|e]; [|discriminate].
    destruct (if_truthy sub) as [s|]; [|destruct (if_truthy d) as [dt|]];
      [| |discriminate]; injection Ec as <-; discriminate.
Qed.

Lemma empty_header_is_absent_witness :
  use (Some "fallback")
      {| originalUrl := "/api/content"; hostname := Some "www.example.com";
         x_tenant_id := HString ""; requestId := None |} returns =
  use (Some "fallback")
      {| originalUrl := "/api/content"; hostname := Some "www.example.com";
         x_tenant_id := HAbsent; requestId := None |} returns.
Proof.
  apply (proj1 (empty_header_is_absent (Some "fallback")
           {| originalUrl := "/api/content"; hostname := Some "www.example.com";
              x_tenant_id := HString ""; requestId := None |} returns eq_refl)).
Defined.

End TenantResolver.

(** ** BodySanitizer on trees *)

Section BodySanitizer.
Import Logger.

Lemma includes_cons (xs : list string) (x y : string) :
  includes (x :: xs) y = (y =? x) || includes xs y.
Proof. reflexivity. Qed.

Lemma sanitizeBody_unfold (fuel : nat) (body : value) :
  sanitizeBody (S fuel) body =
  fold_left (nested_step fuel)
            (keys (fold_left redact sensitiveFields (spread body)))
            (Some (fold_left redact sensitiveFields (spread body))).
Proof. reflexivity. Qed.

Lemma nesting_obj (o : object) : nesting (VObj o) = S (deepest o).
Proof.
  reflexivity.
Qed.

Lemma sanitized_value_eq (k : string) (v : value) :
  sanitized_value k v =
  if includes sensitiveFields k && truthy v then REDACTED else nested v.
Proof. destruct v; reflexivity. Qed.

Lemma sanitized_value_obj (k : string) (o : object) :
  includes sensitiveFields k = false ->
  sanitized_value k (VObj o) = VObj (sanitized_props o).
Proof.
  intros H. now rewrite sanitized_value_eq, H.
Qed.

Lemma sanitized_value_redacted (k : string) (v : value) :
  includes sensitiveFields k = true -> truthy v = true ->
  sanitized_value k v = REDACTED.
Proof.
  intros H1 H2. now rewrite sanitized_value_eq, H1, H2.
Qed.

Lemma sanitized_value_nested (k : string) (v : value) :
  includes sensitiveFields k && truthy v = false ->
  sanitized_value k v = nested v.
Proof.
  intros H. now rewrite sanitized_value_eq, H.
Qed.

Lemma keys_redact_props (fields : list string) (o : object) :
  keys (redact_props fields o) = keys o.
Proof.
  unfold keys, redact_props. rewrite map_map. reflexivity.
Qed.

Lemma keys_nested_props (ks : list string) (o : object) :
  keys (nested_props ks o) = keys o.
Proof.
  unfold keys, nested_props. rewrite map_map. reflexivity.
Qed.

Lemma keys_cons (k : string) (v : value) (rest : object) :
  keys ((k, v) :: rest) = k :: keys rest.
Proof. reflexivity. Qed.

Lemma redact_props_entry (fs : list string) (k : string) (v : value)
    (rest : object) :
  redact_props fs ((k, v) :: rest) =
  (k, if includes fs k && truthy v then REDACTED else v) :: redact_props fs rest.
Proof. reflexivity. Qed.

Lemma includes_one (f k : string) : includes [f] k = (k =? f).
Proof. unfold includes. simpl. apply orb_false_r. Qed.

Lemma get_absent (o : object) (k : string) :
  includes (keys o) k = false -> get o k = VUndefined.
Proof.
  induction o as [|[k' v] rest IH]; [reflexivity|].
  rewrite keys_cons, includes_cons. cbn [get].
  rewrite (String.eqb_sym k' k).
  destruct (k =? k'); cbn [orb]; [discriminate | exact IH].
Qed.

Lemma redact_props_absent (f : string) (o : object) :
  includes (keys o) f = false -> redact_props [f] o = o.
Proof.
  induction o as [|[k v] rest IH]; [reflexivity|].
  rewrite keys_cons, includes_cons, redact_props_entry, includes_one.
  rewrite (String.eqb_sym k f).
  destruct (f =? k); cbn [orb andb]; [discriminate|].
  intros H. now rewrite (IH H).
Qed.

Lemma redact_one (f : string) (o : object) :
  distinct (keys o) = true -> redact o f = redact_props [f] o.
Proof.
  induction o as [|[k v] rest IH]; intros Hd; [reflexivity|].
  rewrite keys_cons in Hd. cbn [distinct] in Hd.
  apply andb_true_iff in Hd. destruct Hd as [Hk Hd].
  apply negb_true_iff in Hk.
  rewrite redact_props_entry, includes_one.
  unfold redact. cbn [get set]. destruct (k =? f) eqn:E.
  - apply String.eqb_eq in E. subst f.
    rewrite (redact_props_absent _ _ Hk). cbn [andb].
    now destruct (truthy v).
  - cbn [andb]. rewrite <- (IH Hd). unfold redact.
    now destruct (truthy (get rest f)).
Qed.

Lemma redact_props_cons (f : string) (fs : list string) (o : object) :
  redact_props fs (redact_props [f] o) = redact_props (f :: fs) o.
Proof.
  unfold redact_props. rewrite map_map. apply map_ext. intros [k v].
  cbn [fst snd]. rewrite includes_one, includes_cons.
  destruct (k =? f), (truthy v) eqn:Et; cbn [orb andb];
    rewrite ? Et, ? andb_true_r, ? andb_false_r; try reflexivity.
  now destruct (includes fs k).
Qed.

Lemma redact_loop (fields : list string) (o : object) :
  distinct (keys o) = true ->
  fold_left redact fields o = redact_props fields o.
Proof.
  revert o. induction fields as [|f fs IH]; intros o Hd; cbn [fold_left].
  - unfold redact_props. rewrite <- (map_id o) at 1.
    apply map_ext. now intros [k v].
  - rewrite (redact_one _ _ Hd), IH by now rewrite keys_redact_props.
    apply redact_props_cons.
Qed.

Lemma nested_props_entry (ks : list string) (k : string) (v : value)
    (rest : object) :
  nested_props ks ((k, v) :: rest) =
  (k, if includes ks k then nested v else v) :: nested_props ks rest.
Proof. reflexivity. Qed.

Lemma nested_props_absent (k : string) (o : object) :
  includes (keys o) k = false -> nested_props [k] o = o.
Proof.
  induction o as [|[k' v] rest IH]; [reflexivity|].
  rewrite keys_cons, includes_cons, nested_props_entry, includes_one.
  rewrite (String.eqb_sym k' k).
  destruct (k =? k'); cbn [orb]; [discriminate|].
  intros H. now rewrite (IH H).
Qed.

Lemma nested_props_one (k : string) (s : object) :
  distinct (keys s) = true ->
  nested_props [k] s =
  match get s k with
  | VObj o' => set s k (VObj (sanitized_props o'))
  | _ => s
  end.
Proof.
  induction s as [|[k0 v0] rest IH]; intros Hd; [reflexivity|].
  rewrite keys_cons in Hd. cbn [distinct] in Hd.
  apply andb_true_iff in Hd. destruct Hd as [Hk Hd].
  apply negb_true_iff in Hk.
  rewrite nested_props_entry, includes_one. cbn [get set].
  destruct (k0 =? k) eqn:E.
  - apply String.eqb_eq in E. subst k0.
    rewrite (nested_props_absent _ _ Hk). now destruct v0.
  - rewrite (IH Hd). now destruct (get rest k).
Qed.

Lemma nested_props_cons (k : string) (ks : list string) (s : object) :
  includes ks k = false ->
  nested_props ks (nested_props [k] s) = nested_props (k :: ks) s.
Proof.
  intros Hk. unfold nested_props. rewrite map_map. apply map_ext.
  intros [k0 v]. cbn [fst snd]. rewrite includes_one, includes_cons.
  destruct (k0 =? k) eqn:E; cbn [orb]; [|reflexivity].
  apply String.eqb_eq in E. subst k0. now rewrite Hk.
Qed.

Lemma get_nested_props (ks : list string) (s : object) (k : string) :
  get (nested_props ks s) k =
  if includes ks k then nested (get s k) else get s k.
Proof.
  induction s as [|[k0 v] rest IH].
  - cbn. now destruct (includes ks k).
  - rewrite nested_props_entry. cbn [get]. destruct (k0 =? k) eqn:E.
    + apply String.eqb_eq in E. now subst k0.
    + exact IH.
Qed.

Lemma get_redact_props (fs : list string) (o : object) (k : string) :
  get (redact_props fs o) k =
  if includes fs k && truthy (get o k) then REDACTED else get o k.
Proof.
  induction o as [|[k0 v] rest IH].
  - cbn. now rewrite andb_false_r.
  - rewrite redact_props_entry. cbn [get]. destruct (k0 =? k) eqn:E.
    + apply String.eqb_eq in E. now subst k0.
    + exact IH.
Qed.

Lemma nested_loop (fuel : nat) (ks : list string) (s : object) :
  distinct ks = true ->
  distinct (keys s) = true ->
  (forall k o', In k ks -> get s k = VObj o' ->
                sanitizeBody fuel (VObj o') = Some (sanitized_props o')) ->
  fold_left (nested_step fuel) ks (Some s) = Some (nested_props ks s).
Proof.
  revert s. induction ks as [|k ks IH]; intros s Hks Hs Hrec; cbn [fold_left].
  - f_equal. unfold nested_props. rewrite <- (map_id s) at 1.
    apply map_ext. now intros [k v].
  - cbn [distinct] in Hks. apply andb_true_iff in Hks.
    destruct Hks as [Hk Hks]. apply negb_true_iff in Hk.
    assert (E : nested_step fuel (Some s) k = Some (nested_props [k] s)).
    { unfold nested_step. rewrite (nested_props_one _ _ Hs).
      destruct (get s k) eqn:G; try reflexivity.
      now rewrite (Hrec k props (or_introl eq_refl) G). }
    rewrite E, IH.
    + now rewrite nested_props_cons.
    + exact Hks.
    + now rewrite keys_nested_props.
    + intros k' o' Hin G. apply (Hrec k' o' (or_intror Hin)).
      rewrite get_nested_props, includes_one in G.
      destruct (k' =? k) eqn:E'; [|exact G].
      apply String.eqb_eq in E'. subst k'.
      apply includes_not_In in Hk. contradiction.
Qed.

Lemma unique_keys_obj (o : object) :
  unique_keys (VObj o) =
  distinct (keys o) && forallb (fun kv => unique_keys (snd kv)) o.
Proof.
  cbn [unique_keys]. f_equal.
  induction o as [|[k x] rest IH]; [reflexivity|].
  cbn [forallb snd]. now rewrite <- IH.
Qed.

Lemma get_In (o : object) (k : string) (o' : object) :
  get o k = VObj o' -> In (k, VObj o') o.
Proof.
  induction o as [|[k0 v] rest IH]; cbn [get]; [discriminate|].
  destruct (k0 =? k) eqn:E.
  - apply String.eqb_eq in E. subst k0. intros ->. now left.
  - intros H. right. now apply IH.
Qed.

Lemma nesting_In (o : object) (k : string) (x : value) :
  In (k, x) o -> (nesting x <= deepest o)%nat.
Proof.
  induction o as [|[k0 v] rest IH]; intros H; [destruct H|].
  cbn [deepest]. destruct H as [[= -> ->]|H]; [lia|].
  specialize (IH H). lia.
Qed.

Lemma sanitized_props_map (o : object) :
  sanitized_props o =
  map (fun kv => (fst kv, sanitized_value (fst kv) (snd kv))) o.
Proof.
  induction o as [|[k x] rest IH]; [reflexivity|].
  cbn [sanitized_props map fst snd]. now rewrite IH.
Qed.

Lemma loops_compose (o : object) :
  nested_props (keys o) (redact_props sensitiveFields o) = sanitized_props o.
Proof.
  rewrite sanitized_props_map. unfold nested_props, redact_props.
  rewrite map_map. apply map_ext_in. intros [k v] Hin. cbn [fst snd].
  assert (Hk : includes (keys o) k = true).
  { apply includes_In. unfold keys. now apply (in_map fst) in Hin. }
  rewrite Hk, sanitized_value_eq.
  now destruct (includes sensitiveFields k && truthy v).
Qed.

(** On a tree whose objects have distinct keys, [sanitizeBody] returns,
    given a stack as deep as the tree, and its result is
    [sanitized_props]. *)
Lemma sanitizeBody_props (fuel : nat) :
  forall o : object,
    unique_keys (VObj o) = true ->
    (nesting (VObj o) <= fuel)%nat ->
    sanitizeBody fuel (VObj o) = Some (sanitized_props o).
Proof.
  induction fuel as [|fuel IH]; intros o Hu Hn.
  - rewrite nesting_obj in Hn. lia.
  - rewrite unique_keys_obj in Hu. apply andb_true_iff in Hu.
    destruct Hu as [Hd Hall].
    rewrite sanitizeBody_unfold. cbn [spread].
    rewrite (redact_loop _ _ Hd), keys_redact_props.
    rewrite nested_loop.
    + now rewrite loops_compose.
    + exact Hd.
    + now rewrite keys_redact_props.
    + intros k o' _ G. rewrite get_redact_props in G.
      destruct (includes sensitiveFields k && truthy (get o k));
        [discriminate|].
      apply get_In in G. apply IH.
      * rewrite forallb_forall in Hall. apply (Hall _ G).
      * apply nesting_In in G. rewrite nesting_obj in Hn. lia.
Qed.

Lemma get_sanitized_props (o : object) (k : string) :
  get (sanitized_props o) k = sanitized_value k (get o k).
Proof.
  induction o as [|[k0 v] rest IH]; [now rewrite sanitized_value_eq, andb_false_r|].
  cbn [sanitized_props get]. destruct (k0 =? k) eqn:E; [|exact IH].
  apply String.eqb_eq in E. now subst k0.
Qed.

Lemma descend_app (v : value) (p q : list string) :
  descend v (p ++ q) = descend (descend v p) q.
Proof.
  revert v. induction p as [|k p IH]; intros v; [reflexivity|].
  cbn [app descend]. destruct v; try apply IH; now destruct q.
Qed.

(** A path that ends on a mapping runs through mappings. *)
Lemma descend_step (o m : object) (k : string) (rest : list string) :
  descend (VObj o) (k :: rest) = VObj m ->
  exists o1, get o k = VObj o1 /\ descend (VObj o1) rest = VObj m.
Proof.
  cbn [descend]. destruct (get o k) as [| | | | | | |o1];
    try (destruct rest; discriminate).
  intros H. now exists o1.
Qed.

Lemma descend_sanitized (path : list string) :
  forall o m : object,
    Forall (fun p => ~ In p sensitiveFields) path ->
    descend (VObj o) path = VObj m ->
    descend (VObj (sanitized_props o)) path = VObj (sanitized_props m).
Proof.
  induction path as [|k rest IH]; intros o m Hp Hd.
  - injection Hd as ->. reflexivity.
  - apply descend_step in Hd. destruct Hd as [o1 [G Hd]].
    inversion Hp as [|? ? Hk Hrest]; subst.
    cbn [descend]. rewrite get_sanitized_props, G.
    apply includes_not_In in Hk. rewrite (sanitized_value_obj _ _ Hk).
    now apply IH.
Qed.

Lemma first_sensitive_key_redacted (path : list string) :
  forall (o m : object) (k : string),
    descend (VObj o) path = VObj m ->
    In k sensitiveFields ->
    truthy (get m k) = true ->
    exists p q,
      (path ++ [k] = p ++ q)%list /\ p <> [] /\
      descend (VObj (sanitized_props o)) p = REDACTED.
Proof.
  induction path as [|k0 rest IH]; intros o m k Hd Hk Ht.
  - injection Hd as ->. exists [k], []. split; [reflexivity|].
    split; [discriminate|]. cbn [descend]. rewrite get_sanitized_props.
    apply sanitized_value_redacted; [now apply includes_In | exact Ht].
  - apply descend_step in Hd. destruct Hd as [o1 [G Hd]].
    destruct (includes sensitiveFields k0) eqn:E.
    + exists [k0], (rest ++ [k])%list. split; [reflexivity|].
      split; [discriminate|]. cbn [descend].
      rewrite get_sanitized_props, G. now apply sanitized_value_redacted.
    + destruct (IH o1 m k Hd Hk Ht) as [p [q [Hpq [Hne Hr]]]].
      exists (k0 :: p), q. split; [cbn [app]; now rewrite Hpq|].
      split; [discriminate|]. cbn [descend].
      now rewrite get_sanitized_props, G, (sanitized_value_obj _ _ E).
Qed.

(** C3, amended. On a body without cycles, for a key named password,
    token, secret, authorization, creditCard or cvv (case-sensitive) in a
    mapping reached through mappings only, whose value is truthy,
    [sanitizeBody] returns and the result holds "[REDACTED]" in place of
    that value, whatever its type: under the same path when no key of the
    path is itself sensitive, and in any case at the first sensitive key
    along the path, which cuts off everything below it. *)
Theorem truthy_sensitive_values_redacted :
  forall (body m : object) (path : list string) (k : string) (fuel : nat),
    unique_keys (VObj body) = true ->
    (nesting (VObj body) <= fuel)%nat ->
    descend (VObj body) path = VObj m ->
    In k sensitiveFields ->
    truthy (get m k) = true ->
    exists r,
      sanitizeBody fuel (VObj body) = Some r
      /\ (Forall (fun p => ~ In p sensitiveFields) path ->
          descend (VObj r) (path ++ [k]) = REDACTED)
      /\ (exists p q,
             (path ++ [k] = p ++ q)%list /\ p <> [] /\ descend (VObj r) p = REDACTED).
Proof.
  intros body m path k fuel Hu Hn Hd Hk Ht.
  exists (sanitized_props body).
  split; [now apply sanitizeBody_props|]. split.
  - intros Hp. rewrite descend_app, (@descend_sanitized path body m Hp Hd).
    cbn [descend]. rewrite get_sanitized_props.
    apply sanitized_value_redacted; [now apply includes_In | exact Ht].
  - exact (@first_sensitive_key_redacted path body m k Hd Hk Ht).
Qed.

Lemma truthy_sensitive_values_redacted_witness :
  exists r,
    sanitizeBody 2 (VObj nested_body) = Some r
    /\ (Forall (fun p => ~ In p sensitiveFields) ["user"] ->
        descend (VObj r) (["user"] ++ ["password"]) = REDACTED)
    /\ (exists p q,
           (["user"] ++ ["password"] = p ++ q)%list /\ p <> [] /\
           descend (VObj r) p = REDACTED).
Proof.
  apply (@truthy_sensitive_values_redacted nested_body
           [("name", VStr "john");
            ("password", VStr "secret");
            ("tags", VArr [VStr "t1"; VObj [("password", VStr "p")]])]
           ["user"] "password" 2).
  - reflexivity.
  - simpl. lia.
  - reflexivity.
  - simpl. tauto.
  - reflexivity.
Defined.

(** C3 as stated fails for a falsy value: [{ username: 'john', cvv: 0 }]
    keeps its cvv. *)
Lemma falsy_sensitive_value_kept :
  In "cvv" sensitiveFields
  /\ sanitizeBody 1 (VObj [("username", VStr "john"); ("cvv", VNum 0)]) =
     Some [("username", VStr "john"); ("cvv", VNum 0)]
  /\ get [("username", VStr "john"); ("cvv", VNum 0)] "cvv" <> REDACTED.
Proof.
  split; [simpl; tauto|]. split; [reflexivity | discriminate].
Qed.

(** C9, amended. On a body without cycles, an array held under a key that
    is not a sensitive name, in a mapping reached through mappings and
    non-sensitive keys only, is in the result as it was: [sanitizeBody] does
    not enter it, and sensitive keys of objects inside the array keep their
    values. *)
Theorem arrays_pass_through :
  forall (body m : object) (path : list string) (k : string)
         (elems : list value) (fuel : nat),
    unique_keys (VObj body) = true ->
    (nesting (VObj body) <= fuel)%nat ->
    Forall (fun p => ~ In p sensitiveFields) path ->
    descend (VObj body) path = VObj m ->
    ~ In k sensitiveFields ->
    get m k = VArr elems ->
    exists r,
      sanitizeBody fuel (VObj body) = Some r
      /\ descend (VObj r) (path ++ [k]) = VArr elems.
Proof.
  intros body m path k elems fuel Hu Hn Hp Hd Hk G.
  exists (sanitized_props body).
  split; [now apply sanitizeBody_props|].
  rewrite descend_app, (@descend_sanitized path body m Hp Hd). cbn [descend].
  rewrite get_sanitized_props, G, sanitized_value_eq.
  apply includes_not_In in Hk. now rewrite Hk.
Qed.

Lemma arrays_pass_through_witness :
  exists r,
    sanitizeBody 2 (VObj nested_body) = Some r
    /\ descend (VObj r) (["user"] ++ ["tags"]) =
       VArr [VStr "t1"; VObj [("password", VStr "p")]].
Proof.
  apply (@arrays_pass_through nested_body
           [("name", VStr "john");
            ("password", VStr "secret");
            ("tags", VArr [VStr "t1"; VObj [("password", VStr "p")]])]
           ["user"] "tags" [VStr "t1"; VObj [("password", VStr "p")]] 2).
  - reflexivity.
  - simpl. lia.
  - constructor; [|constructor].
    intros [H|[H|[H|[H|[H|[H|[]]]]]]]; discriminate H.
  - reflexivity.
  - intros [H|[H|[H|[H|[H|[H|[]]]]]]]; discriminate H.
  - reflexivity.
Defined.

(** C9 as stated fails for an array held under a sensitive key:
    [{ token: ['a', 'b'] }] loses its array. *)
Lemma array_under_sensitive_key_redacted :
  get [("token", VArr [VStr "a"; VStr "b"])] "token" = VArr [VStr "a"; VStr "b"]
  /\ sanitizeBody 1 (VObj [("token", VArr [VStr "a"; VStr "b"])]) =
     Some [("token", VStr "[REDACTED]")]
  /\ get [("token", VStr "[REDACTED]")] "token" <> VArr [VStr "a"; VStr "b"].
Proof.
  split; [reflexivity|]. split; [reflexivity | discriminate].
Qed.

End BodySanitizer.

(** ** RequestLogger *)

Section RequestLogger.
Import Logger.

(** The body line of the test "should log request body when present":
    [[test-request-id] Body: {"name":"test","age":25}]. *)
Example use_logs_the_body :
  use 1 plain_request =
  ([{| level := LOG;
       text := "[test-request-id] Incoming: GET /api/test - UserAgent: test-agent" |};
    {| level := DEBUG;
       text := "[test-request-id] Body: {" ++ dquote ++ "name" ++ dquote ++ ":"
               ++ dquote ++ "test" ++ dquote ++ "," ++ dquote ++ "age" ++ dquote
               ++ ":25}" |}],
   Ok tt).
Proof. reflexivity. Qed.

(** C2, at the body of the test "should handle objects with BigInt
    values": whatever the depth of the stack, [use] logs the incoming line
    and then throws the TypeError of JSON.stringify; no body line is logged,
    the fallback text in particular is not. *)
Theorem use_throws_on_bigint :
  forall fuel : nat,
    use (S fuel) bigint_request =
    ([{| level := LOG;
         text := "[no-request-id] Incoming: POST /api/bigint - UserAgent: unknown" |}],
     Throw (TypeError "Do not know how to serialize a BigInt"))
    /\ ~ In {| level := DEBUG;
               text := "[no-request-id] Body: " ++ serialization_fallback |}
            (fst (use (S fuel) bigint_request)).
Proof.
  intros fuel.
  assert (E : use (S fuel) bigint_request =
    ([{| level := LOG;
         text := "[no-request-id] Incoming: POST /api/bigint - UserAgent: unknown" |}],
     Throw (TypeError "Do not know how to serialize a BigInt")))
    by reflexivity.
  split; [exact E|]. rewrite E. cbn [fst].
  intros [H|[]]. discriminate H.
Qed.

End RequestLogger.

(** ** BodySanitizer on a body that refers to itself *)

Section CircularBody.
Import Cyclic.
Local Open Scope list_scope.

Lemma sanitizeBody_unfold_heap (fuel : nat) (h : heap) (body : nat) :
  sanitizeBody (S fuel) h body =
  let sanitized := List.length h in
  let h1 := fold_left (redact_step sanitized) sensitiveFields
                      (h ++ [deref h body]) in
  match
    fold_left (nested_step fuel sanitized) (keys (deref h1 sanitized)) (Some h1)
  with
  | Some h2 => Some (h2, sanitized)
  | None => None
  end.
Proof. reflexivity. Qed.

Lemma deref_app_new (h : heap) (o : object) :
  deref (h ++ [o]) (List.length h) = o.
Proof.
  unfold deref. rewrite app_nth2 by lia. now rewrite Nat.sub_diag.
Qed.

Lemma deref_app_old (h : heap) (o : object) (a : nat) :
  (a < List.length h)%nat -> deref (h ++ [o]) a = deref h a.
Proof.
  intros H. unfold deref. now rewrite app_nth1.
Qed.

Lemma store_length (h : heap) (a : nat) (o : object) :
  List.length (store h a o) = List.length h.
Proof.
  revert a. induction h as [|x h IH]; intros [|a]; simpl; auto.
Qed.

Lemma deref_store_same (h : heap) (a : nat) (o : object) :
  (a < List.length h)%nat -> deref (store h a o) a = o.
Proof.
  revert a. induction h as [|x h IH]; intros [|a] H; simpl in *; try lia.
  - reflexivity.
  - apply IH. lia.
Qed.

Lemma deref_store_other (h : heap) (a i : nat) (o : object) :
  a <> i -> deref (store h a o) i = deref h i.
Proof.
  revert a i. induction h as [|x h IH]; intros [|a] [|i] H; simpl;
    try reflexivity; try congruence.
  apply IH. congruence.
Qed.

Lemma get_set_other (o : object) (k k' : string) (v : value) :
  k <> k' -> get (set o k v) k' = get o k'.
Proof.
  intros Hne. induction o as [|[k0 v0] rest IH]; cbn [set get].
  - apply String.eqb_neq in Hne. now rewrite Hne.
  - destruct (k0 =? k) eqn:E; cbn [get].
    + apply String.eqb_eq in E. subst k0.
      apply String.eqb_neq in Hne. now rewrite Hne.
    + destruct (k0 =? k'); [reflexivity | exact IH].
Qed.

Lemma get_ref_key (o : object) (k : string) (b : nat) :
  get o k = VRef b -> In k (keys o).
Proof.
  induction o as [|[k0 v0] rest IH]; cbn [get]; [discriminate|].
  destruct (k0 =? k) eqn:E.
  - apply String.eqb_eq in E. subst k0. intros _. now left.
  - intros H. right. now apply IH.
Qed.

Lemma extends_refl_app (h : heap) (o : object) : extends h (h ++ [o]).
Proof.
  split.
  - rewrite length_app. simpl. lia.
  - intros i Hi. now apply deref_app_old.
Qed.

Lemma extends_assign (h h' : heap) (k : string) (v : value) :
  extends h h' -> extends h (assign h' (List.length h) k v).
Proof.
  intros [Hl Hd]. unfold assign. split.
  - now rewrite store_length.
  - intros i Hi. rewrite deref_store_other by lia. now apply Hd.
Qed.

Lemma extends_trans (h h1 h2 : heap) :
  extends h h1 -> extends h1 h2 -> extends h h2.
Proof.
  intros [L1 D1] [L2 D2]. split; [lia|].
  intros i Hi. rewrite D2 by lia. now apply D1.
Qed.

Lemma edge_valid (h : heap) (a b : nat) :
  edge h a b -> (a < List.length h)%nat.
Proof.
  intros [k [_ G]]. destruct (Nat.lt_ge_cases a (List.length h)) as [H|H];
    [exact H|].
  unfold deref in G. rewrite nth_overflow in G by exact H. discriminate G.
Qed.

Lemma closed_extends (h h' : heap) (P : nat -> Prop) :
  closed h P -> extends h h' -> closed h' P.
Proof.
  intros Hc [_ Hd] a Pa. destruct (Hc a Pa) as [b [He Pb]].
  exists b. split; [|exact Pb].
  pose proof (edge_valid He) as Hv.
  destruct He as [k [Hk G]]. exists k. split; [exact Hk|].
  now rewrite Hd.
Qed.

(** The first loop leaves the heap below the copy alone and does not
    touch a key that is not a sensitive name. *)
Lemma redact_loop_heap (h : heap) (fields : list string) :
  forall h1 : heap,
    extends h h1 ->
    extends h (fold_left (redact_step (List.length h)) fields h1)
    /\ (forall k,
           ~ In k fields ->
           get (deref (fold_left (redact_step (List.length h)) fields h1)
                      (List.length h)) k =
           get (deref h1 (List.length h)) k).
Proof.
  induction fields as [|f fs IH]; intros h1 He; cbn [fold_left].
  - split; [exact He | reflexivity].
  - assert (He' : extends h (redact_step (List.length h) h1 f)).
    { unfold redact_step.
      destruct (truthy (get (deref h1 (List.length h)) f));
        [now apply extends_assign | exact He]. }
    destruct (IH _ He') as [H1 H2]. split; [exact H1|].
    intros k Hk. rewrite H2 by (intros H; apply Hk; now right).
    unfold redact_step.
    destruct (truthy (get (deref h1 (List.length h)) f)); [|reflexivity].
    unfold assign. rewrite deref_store_same by (destruct He; lia).
    apply get_set_other. intros ->. apply Hk. now left.
Qed.

Lemma nested_step_None (fuel sanitized : nat) (ks : list string) :
  fold_left (nested_step fuel sanitized) ks None = None.
Proof.
  induction ks as [|k ks IH]; [reflexivity | exact IH].
Qed.

(** What a call that returns leaves of the heap it was given. *)
Lemma sanitizeBody_extends (fuel : nat) :
  forall (h : heap) (a : nat) (h' : heap) (a' : nat),
    sanitizeBody fuel h a = Some (h', a') -> extends h h'.
Proof.
  induction fuel as [|fuel IH]; intros h a h' a' H; [discriminate|].
  rewrite sanitizeBody_unfold_heap in H. cbv zeta in H.
  destruct (redact_loop_heap sensitiveFields (extends_refl_app h (deref h a)))
    as [He _].
  set (h1 := fold_left (redact_step (List.length h)) sensitiveFields
                       (h ++ [deref h a])) in *.
  assert (L : forall ks hs hr,
             extends h hs ->
             fold_left (nested_step fuel (List.length h)) ks (Some hs) = Some hr ->
             extends h hr).
  { induction ks as [|k ks IHk]; intros hs hr Hs Hf; cbn [fold_left] in Hf.
    - now injection Hf as <-.
    - destruct (nested_step fuel (List.length h) (Some hs) k) as [hm|] eqn:Em;
        [|now rewrite nested_step_None in Hf].
      apply (IHk hm hr); [|exact Hf].
      unfold nested_step in Em.
      destruct (get (deref hs (List.length h)) k);
        try (injection Em as <-; exact Hs).
      destruct (sanitizeBody fuel hs address) as [[h3 o']|] eqn:Er;
        [|discriminate].
      injection Em as <-. apply extends_assign.
      apply (extends_trans Hs). now apply (IH _ _ _ _ Er). }
  destruct (fold_left (nested_step fuel (List.length h))
                      (keys (deref h1 (List.length h))) (Some h1))
    as [h2|] eqn:Ef; [|discriminate].
  injection H as <- _. now apply (L _ _ _ He Ef).
Qed.

(** An object that holds, under keys that are not sensitive names, an
    object which in turn holds such an object, and so on without end,
    overflows every stack. *)
Lemma sanitizeBody_overflows (P : nat -> Prop) (fuel : nat) :
  forall (h : heap) (a : nat),
    closed h P -> P a -> sanitizeBody fuel h a = None.
Proof.
  induction fuel as [|fuel IH]; intros h a Hc Pa; [reflexivity|].
  rewrite sanitizeBody_unfold_heap. cbv zeta.
  destruct (Hc a Pa) as [b [[k [Hk G]] Pb]].
  destruct (redact_loop_heap sensitiveFields (extends_refl_app h (deref h a)))
    as [He Hg].
  set (h1 := fold_left (redact_step (List.length h)) sensitiveFields
                       (h ++ [deref h a])) in *.
  assert (G1 : get (deref h1 (List.length h)) k = VRef b).
  { rewrite Hg by now apply includes_not_In.
    now rewrite deref_app_new. }
  assert (L : forall ks hs,
             extends h hs ->
             get (deref hs (List.length h)) k = VRef b ->
             In k ks ->
             fold_left (nested_step fuel (List.length h)) ks (Some hs) = None).
  { induction ks as [|k0 ks IHk]; intros hs Hs Gs Hin; [destruct Hin|].
    cbn [fold_left].
    destruct (String.eqb_spec k0 k) as [->|Hne].
    - unfold nested_step at 2. rewrite Gs.
      rewrite (IH hs b (closed_extends Hc Hs) Pb).
      apply nested_step_None.
    - destruct Hin as [Hin|Hin]; [contradiction|].
      destruct (nested_step fuel (List.length h) (Some hs) k0) as [hm|] eqn:Em;
        [|apply nested_step_None].
      unfold nested_step in Em.
      destruct (get (deref hs (List.length h)) k0);
        try (injection Em as <-; now apply IHk).
      destruct (sanitizeBody fuel hs address) as [[h3 o']|] eqn:Er;
        [|discriminate].
      injection Em as <-.
      pose proof (sanitizeBody_extends _ _ _ Er) as H3.
      apply IHk; [| |exact Hin].
      + apply extends_assign. now apply (extends_trans Hs).
      + unfold assign. destruct Hs as [Ls Ds]. destruct H3 as [L3 D3].
        rewrite deref_store_same by lia.
        rewrite get_set_other by exact Hne.
        now rewrite D3. }
  rewrite (L _ _ He G1 (get_ref_key _ _ G1)). reflexivity.
Qed.

(** An object reached from itself along mapping-valued fields whose keys
    are not sensitive names overflows every stack. *)
Lemma sanitizeBody_overflows_on_cycle (h : heap) (a : nat) (fuel : nat) :
  reaches h a a -> sanitizeBody fuel h a = None.
Proof.
  intros Hr. apply (@sanitizeBody_overflows (fun x => reaches h x a));
    [|exact Hr].
  intros x Hx. inversion Hx as [? ? He|? y ? He Hy]; subst.
  - exists a. now split.
  - exists y. now split.
Qed.

(** C1, at the body of the test "should handle circular references":
    on [const body = { name: 'test' }; body.self = body], with every depth
    of the stack, [sanitizeBody] overflows the stack; it returns no object,
    so no slot holds the marker. *)
Theorem sanitizeBody_overflows_on_circular_body :
  forall fuel : nat, sanitizeBody fuel circular_heap 0 = None.
Proof.
  intros fuel. apply sanitizeBody_overflows_on_cycle.
  apply reaches_edge. exists "self". split; reflexivity.
Qed.

End CircularBody.

(** ** TenantResolver: outcomes, the subdomain and the excluded paths *)

Section TenantOutcomes.
Import Tenant TenantFacts.

(** X1. Whenever [use] returns, it has called [next()], and the
    x-tenant-id response header is set exactly when a tenant context was
    stored on the request, to that context's tenant id. *)
Theorem use_header_mirrors_context :
  forall (d : option string) (req : Request) (next : NextFunction)
         (o : Outcome),
    use d req next = Ok o ->
    next_called o = true
    /\ res_x_tenant_id o = option_map tenantId (req_tenantContext o).
Proof.
  intros d req next o H.
  destruct (use_returns_inv _ _ _ H) as [_ [[_ ->]|[_ [context [_ [-> _]]]]]];
    split; reflexivity.
Qed.

Lemma use_header_mirrors_context_witness :
  next_called (resolved {| tenantId := "acme"; subdomain := Some "acme";
                           source := subdomain_source |}) = true
  /\ res_x_tenant_id (resolved {| tenantId := "acme"; subdomain := Some "acme";
                                  source := subdomain_source |}) =
     option_map tenantId
       (req_tenantContext (resolved {| tenantId := "acme";
                                       subdomain := Some "acme";
                                       source := subdomain_source |})).
Proof.
  apply (@use_header_mirrors_context None
           {| originalUrl := "/api/content"; hostname := Some "acme.example.com";
              x_tenant_id := HAbsent; requestId := None |} returns).
  reflexivity.
Defined.

Lemma extractSubdomain_inv (h : option string) (s : string) :
  extractSubdomain h = Ok (Some s) ->
  exists h' rest,
    h = Some h' /\ h' <> "localhost" /\ is_ipv4 h' = false /\
    split_dot h' = s :: rest /\ (2 <= List.length rest)%nat /\
    ~ In s ignoredSubdomains.
Proof.
  unfold extractSubdomain. destruct h as [h'|]; [|discriminate].
  destruct (h' =? "localhost") eqn:El; [discriminate|].
  destruct (is_ipv4 h') eqn:Ei; [discriminate|]. cbn [orb].
  destruct (3 <=? List.length (split_dot h'))%nat eqn:E3; [|discriminate].
  destruct (split_dot h') as [|x rest] eqn:Es; [discriminate|].
  cbn [hd]. destruct (includes ignoredSubdomains x) eqn:Ein; [discriminate|].
  intros [= <-]. exists h', rest. apply Nat.leb_le in E3. cbn in E3.
  split; [reflexivity|]. split; [now apply String.eqb_neq|].
  split; [exact Ei|]. split; [exact Es|].
  split; [lia | now apply includes_not_In].
Qed.

(** X2. The source of a resolved tenant says where it came from, and a
    source is only used when every source before it gave nothing: a
    header-sourced tenant is the (first) value of a truthy header and has
    no subdomain; a subdomain-sourced tenant is the non-empty, non-reserved
    first label of the hostname, stored as subdomain too, and the header was
    falsy; a default-sourced tenant is the non-empty configured default,
    the header was falsy and the hostname gave no usable subdomain. *)
Theorem resolved_context_shape :
  forall (d : option string) (req : Request) (next : NextFunction)
         (o : Outcome) (tc : TenantContext),
    use d req next = Ok o ->
    req_tenantContext o = Some tc ->
    match source tc with
    | header_source =>
        header_truthy (x_tenant_id req) = true
        /\ tenantId tc = header_first (x_tenant_id req)
        /\ subdomain tc = None
    | subdomain_source =>
        header_truthy (x_tenant_id req) = false
        /\ extractSubdomain (hostname req) = Ok (Some (tenantId tc))
        /\ tenantId tc <> ""
        /\ ~ In (tenantId tc) ignoredSubdomains
        /\ subdomain tc = Some (tenantId tc)
    | default_source =>
        header_truthy (x_tenant_id req) = false
        /\ (extractSubdomain (hostname req) = Ok None
            \/ extractSubdomain (hostname req) = Ok (Some ""))
        /\ d = Some (tenantId tc)
        /\ tenantId tc <> ""
        /\ subdomain tc = None
    end.
Proof.
  intros d req next o tc H Htc.
  destruct (use_returns_inv _ _ _ H) as [_ [[_ ->]|[_ [context [E [-> _]]]]]];
    [discriminate Htc|].
  cbn in Htc. subst context.
  unfold extractTenantContext in E.
  destruct (header_truthy (x_tenant_id req)) eqn:Hh.
  { injection E as <-. cbn. auto. }
  destruct (extractSubdomain (hostname req)) as [sub|e] eqn:Es; [|discriminate].
  destruct (if_truthy sub) as [s|] eqn:Et.
  - injection E as <-. cbn. apply if_truthy_inv in Et.
    destruct Et as [-> Hne]. repeat split; try assumption; try reflexivity.
    destruct (extractSubdomain_inv _ Es) as [h' [rest [_ [_ [_ [_ [_ Hi]]]]]]].
    exact Hi.
  - destruct (if_truthy d) as [dt|] eqn:Ed; [|discriminate].
    injection E as <-. cbn. apply if_truthy_inv in Ed.
    destruct Ed as [-> Hne]. repeat split; try assumption; try reflexivity.
    destruct sub as [s|]; [|now left]. right.
    unfold if_truthy in Et. destruct (truthy_string s) eqn:Ts; [discriminate|].
    unfold truthy_string in Ts. apply negb_false_iff in Ts.
    apply String.eqb_eq in Ts. now subst s.
Qed.

Lemma resolved_context_shape_witness :
  header_truthy HAbsent = false
  /\ (extractSubdomain (Some "www.example.com") = Ok None
      \/ extractSubdomain (Some "www.example.com") = Ok (Some ""))
  /\ Some "fallback" = Some "fallback"
  /\ "fallback" <> ""
  /\ @None string = None.
Proof.
  apply (@resolved_context_shape (Some "fallback")
           {| originalUrl := "/api/content"; hostname := Some "www.example.com";
              x_tenant_id := HAbsent; requestId := None |} returns
           (resolved {| tenantId := "fallback"; subdomain := None;
                        source := default_source |})
           {| tenantId := "fallback"; subdomain := None;
              source := default_source |});
    reflexivity.
Defined.

Lemma split_dot_nonempty (s : string) : split_dot s <> [].
Proof.
  destruct s as [|c r]; cbn [split_dot]; [discriminate|].
  destruct (Ascii.eqb c "."); [discriminate|].
  destruct (split_dot r); discriminate.
Qed.

Lemma has_dot_app (s t : string) : has_dot (s ++ String "."%char t) = true.
Proof.
  induction s as [|c s IH]; cbn [append has_dot]; [reflexivity|].
  rewrite IH. apply orb_true_r.
Qed.

(** Splitting at the dots and what it leaves of the string. *)
Lemma split_dot_cons (h : string) :
  forall (s : string) (t : list string),
    split_dot h = s :: t ->
    (t = [] /\ h = s /\ has_dot h = false)
    \/ (exists rest,
           h = s ++ "." ++ rest /\ split_dot rest = t /\ has_dot s = false).
Proof.
  induction h as [|c r IH]; intros s t H; cbn [split_dot] in H.
  - injection H as <- <-. left. repeat split.
  - destruct (Ascii.eqb c ".") eqn:Ec.
    + apply Ascii.eqb_eq in Ec. subst c. injection H as <- <-.
      right. exists r. repeat split.
    + destruct (split_dot r) as [|h0 t0] eqn:Er;
        [now apply split_dot_nonempty in Er|].
      injection H as <- <-.
      destruct (IH h0 t0 eq_refl) as [[-> [-> Hd]]|[rest [-> [Hs Hd]]]].
      * left. cbn [has_dot]. rewrite Ec, Hd. repeat split.
      * right. exists rest. cbn [has_dot]. rewrite Ec, Hd. repeat split.
        exact Hs.
Qed.

(** X3. A subdomain that [extractSubdomain] returns is the hostname's
    first label: the hostname is that label, a dot, and a remainder that
    holds at least one more dot; the label holds no dot and is not one of
    www, api, admin, app. *)
Theorem subdomain_is_first_label :
  forall (h s : string),
    extractSubdomain (Some h) = Ok (Some s) ->
    exists rest,
      h = s ++ "." ++ rest
      /\ has_dot s = false
      /\ has_dot rest = true
      /\ ~ In s ignoredSubdomains.
Proof.
  intros h s H.
  destruct (extractSubdomain_inv _ H)
    as [h' [t [[= <-] [_ [_ [Hs [Hl Hi]]]]]]].
  destruct (split_dot_cons _ Hs) as [[-> _]|[rest [-> [Hr Hd]]]].
  - cbn in Hl. lia.
  - exists rest. split; [reflexivity|]. split; [exact Hd|].
    split; [|exact Hi].
    destruct t as [|x t']; [cbn in Hl; lia|].
    destruct (split_dot_cons _ Hr) as [[-> _]|[rest' [-> _]]].
    + cbn in Hl. lia.
    + apply has_dot_app.
Qed.

Lemma subdomain_is_first_label_witness :
  exists rest,
    "acme.example.com" = "acme" ++ "." ++ rest
    /\ has_dot "acme" = false
    /\ has_dot rest = true
    /\ ~ In "acme" ignoredSubdomains.
Proof.
  apply (@subdomain_is_first_label "acme.example.com" "acme"). reflexivity.
Defined.



(** X5. What lies under an excluded path is excluded: if a path is
    excluded, so is the path followed by '/' and anything. *)
Theorem excluded_paths_closed_under_subpaths :
  forall (path rest : string),
    isExcludedPath path = true ->
    isExcludedPath (path ++ "/" ++ rest) = true.
Proof.
  intros path rest H. apply isExcludedPath_iff in H.
  destruct H as [e [Hin H]]. apply isExcludedPath_iff.
  exists e. split; [exact Hin|]. right.
  destruct H as [->|[r ->]].
  - now exists rest.
  - exists (r ++ "/" ++ rest). now rewrite ! append_assoc.
Qed.

Lemma excluded_paths_closed_under_subpaths_witness :
  isExcludedPath ("/api/public/docs" ++ "/" ++ "v1/intro") = true.
Proof.
  apply excluded_paths_closed_under_subpaths. reflexivity.
Defined.

(** X6. The query string is part of the path that is tested: each of
    the three configured paths /health, /api/public and /api/auth/register
    followed directly by '?' and a query is not excluded, whereas below
    such a path (after the path and '/') a query changes nothing, the path
    stays excluded. *)
Theorem query_string_defeats_exclusion :
  forall (e q : string),
    In e excludedPaths ->
    isExcludedPath (e ++ "?" ++ q) = false
    /\ forall rest, isExcludedPath (e ++ "/" ++ rest ++ "?" ++ q) = true.
Proof.
  intros e q He. split.
  - destruct He as [<-|[<-|[<-|[]]]]; reflexivity.
  - intros rest. apply isExcludedPath_iff. exists e. split; [exact He|].
    right. now exists (rest ++ "?" ++ q).
Qed.

Lemma query_string_defeats_exclusion_witness :
  isExcludedPath ("/health" ++ "?" ++ "probe=1") = false
  /\ forall rest,
       isExcludedPath ("/health" ++ "/" ++ rest ++ "?" ++ "probe=1") = true.
Proof.
  apply query_string_defeats_exclusion. simpl. tauto.
Defined.

End TenantOutcomes.

(** ** The gates: what they let through and what their rejections carry *)

Section Gates.

Lemma or_else_nonempty (x : option string) (d : string) :
  d <> "" -> or_else x d <> "".
Proof.
  intros Hd. unfold or_else. destruct x as [s|]; [|exact Hd].
  destruct (truthy_string s) eqn:E; [|exact Hd].
  now apply truthy_string_true.
Qed.

Lemma or_else_given (s d : string) : s <> "" -> or_else (Some s) d = s.
Proof.
  intros H. unfold or_else. apply truthy_string_true in H. now rewrite H.
Qed.

(** X7. [handleRequest] returns an identity only when the validator
    reported no error, the identity is there, and [info] is null or a plain
    Error whose message is not 'No auth token'; the identity returned is the
    validator's. *)
Theorem handleRequest_returns_only_clean :
  forall (T : Type) (err : option JwtAuth.JsError) (user : option T)
         (info : option JwtAuth.JsError) (rid : option string) (u : T),
    JwtAuth.handleRequest err user info rid = Ok u ->
    err = None
    /\ user = Some u
    /\ (forall i, info = Some i ->
                  JwtAuth.cls i = JwtAuth.ClsError
                  /\ JwtAuth.message i <> "No auth token").
Proof.
  intros T err user info rid u H. unfold JwtAuth.handleRequest in H.
  destruct (JwtAuth.info_instanceof info JwtAuth.ClsTokenExpiredError);
    [discriminate|].
  destruct (JwtAuth.info_instanceof info JwtAuth.ClsJsonWebTokenError) eqn:Ej;
    [discriminate|].
  destruct (JwtAuth.info_message_is info "No auth token") eqn:Em;
    [discriminate|].
  destruct err as [e|]; [discriminate|].
  destruct user as [u'|]; [|discriminate].
  injection H as <-. split; [reflexivity|]. split; [reflexivity|].
  intros i ->. cbn in Ej, Em. split.
  - unfold JwtAuth.instanceof in Ej. now destruct (JwtAuth.cls i).
  - now apply String.eqb_neq.
Qed.

Lemma handleRequest_returns_only_clean_witness :
  @None JwtAuth.JsError = None
  /\ Some 7 = Some 7
  /\ (forall i,
         Some {| JwtAuth.cls := JwtAuth.ClsError;
                 JwtAuth.message := "no auth token" |} = Some i ->
         JwtAuth.cls i = JwtAuth.ClsError
         /\ JwtAuth.message i <> "No auth token").
Proof.
  apply (@handleRequest_returns_only_clean nat None (Some 7)
           (Some {| JwtAuth.cls := JwtAuth.ClsError;
                    JwtAuth.message := "no auth token" |})
           None 7).
  reflexivity.
Defined.

(** X8. Every rejection of the authentication gate, the role gate, the
    feature gate and the tenant middleware carries a request id that is not
    empty: the request's own id when it has a non-empty one, and
    'no-request-id' otherwise. *)
Theorem rejections_carry_request_id :
  forall (rid : option string),
    (forall (T : Type) err (user : option T) info r,
        JwtAuth.handleRequest err user info rid = Throw r ->
        JwtAuth.rej_requestId r = or_else rid "no-request-id")
    /\ (forall required user r,
           Roles.canActivate required user rid = Throw r ->
           Roles.rej_requestId r = or_else rid "no-request-id")
    /\ (forall flag tc r,
           FeatureFlag.canActivate flag tc rid = Throw r ->
           FeatureFlag.rej_requestId r = or_else rid "no-request-id")
    /\ (forall d req next b,
           Tenant.requestId req = rid ->
           Tenant.use d req next = Throw (Tenant.BadRequestException b) ->
           Tenant.bad_requestId b = or_else rid "no-request-id")
    /\ or_else rid "no-request-id" <> ""
    /\ (forall s, rid = Some s -> s <> "" -> or_else rid "no-request-id" = s)
    /\ (rid = None \/ rid = Some "" -> or_else rid "no-request-id" = "no-request-id").
Proof.
  intros rid. repeat apply conj.
  - intros T err user info r H. unfold JwtAuth.handleRequest in H.
    destruct (JwtAuth.info_instanceof info JwtAuth.ClsTokenExpiredError);
      [now injection H as <-|].
    destruct (JwtAuth.info_instanceof info JwtAuth.ClsJsonWebTokenError);
      [now injection H as <-|].
    destruct (JwtAuth.info_message_is info "No auth token");
      [now injection H as <-|].
    destruct err, user; try discriminate; now injection H as <-.
  - intros required user r H. unfold Roles.canActivate in H.
    destruct required as [[|x xs]|]; try discriminate.
    destruct user as [u|]; [|now injection H as <-].
    destruct (negb (existsb (fun r0 => includes (Roles.roles_of u) r0) (x :: xs)));
      [now injection H as <-|discriminate].
  - intros flag tc r H. unfold FeatureFlag.canActivate in H.
    destruct (if_truthy flag) as [f|]; [|discriminate].
    destruct (negb (FeatureFlag.isFeatureEnabled f
                      (option_map Tenant.tenantId tc)));
      [now injection H as <-|discriminate].
  - intros d req next b <- H. unfold Tenant.use in H.
    destruct (Tenant.isExcludedPath (Tenant.originalUrl req));
      [destruct next; discriminate|].
    match type of H with
    | match ?a with _ => _ end = _ => destruct a; [discriminate|]
    end.
    now injection H as <-.
  - apply or_else_nonempty. discriminate.
  - intros s -> Hs. now apply or_else_given.
  - intros [->| ->]; reflexivity.
Qed.

Lemma rejections_carry_request_id_witness :
  Roles.rej_requestId
    {| Roles.rej_message := "User not Authenticated";
       Roles.rej_code := Roles.USER_NOT_FOUND;
       Roles.rej_requiredRoles := None;
       Roles.rej_userRoles := None;
       Roles.rej_requestId := "req-9" |} = or_else (Some "req-9") "no-request-id"
  /\ or_else (Some "req-9") "no-request-id" = "req-9".
Proof.
  split.
  - apply (proj1 (proj2 (rejections_carry_request_id (Some "req-9")))
             (Some ["admin"]) None). reflexivity.
  - apply (proj1 (proj2 (proj2 (proj2 (proj2 (proj2
             (rejections_carry_request_id (Some "req-9")))))))).
    + reflexivity.
    + discriminate.
Defined.

(** X9. The role gate's decision grows with the lists: once a request
    passes a non-empty requirement, it still passes when roles are added to
    the identity and when alternatives are added to the requirement, in any
    order and with any repetition; the request id plays no part. *)
Theorem roles_decision_monotone :
  forall (required required' : list string) (u u' : Roles.User)
         (rid rid' : option string),
    required <> [] ->
    incl required required' ->
    incl (Roles.roles_of u) (Roles.roles_of u') ->
    Roles.canActivate (Some required) (Some u) rid = Ok true ->
    Roles.canActivate (Some required') (Some u') rid' = Ok true.
Proof.
  intros required required' u u' rid rid' Hne Hr Hu H.
  assert (Hex : exists x, In x required /\ In x (Roles.roles_of u)).
  { destruct required as [|r rs]; [contradiction|].
    unfold Roles.canActivate in H. apply hasRole_exists.
    destruct (existsb (fun x => includes (Roles.roles_of u) x) (r :: rs));
      [reflexivity | discriminate]. }
  destruct Hex as [x [Hx1 Hx2]].
  assert (Hex' : exists y, In y required' /\ In y (Roles.roles_of u'))
    by (exists x; split; [now apply Hr | now apply Hu]).
  apply hasRole_exists in Hex'.
  destruct required' as [|r' rs']; [reflexivity|].
  unfold Roles.canActivate. now rewrite Hex'.
Qed.

Lemma roles_decision_monotone_witness :
  Roles.canActivate (Some ["superadmin"; "admin"])
    (Some {| Roles.roles := Some ["admin"; "user"; "admin"] |}) (Some "r2") =
  Ok true.
Proof.
  apply (@roles_decision_monotone ["admin"] ["superadmin"; "admin"]
           {| Roles.roles := Some ["user"; "admin"] |}
           {| Roles.roles := Some ["admin"; "user"; "admin"] |}
           None (Some "r2")).
  - discriminate.
  - intros x [<-|[]]. simpl. tauto.
  - intros x [<-|[<-|[]]]; simpl; tauto.
  - reflexivity.
Defined.

(** X10. A request without tenant is never worse off at the feature gate:
    a flag the gate allows for some tenant context it also allows without
    one, and a tenant id that is the empty string counts as none. *)
Theorem tenantless_request_most_permissive :
  forall (flag : option string) (tc : option Tenant.TenantContext)
         (rid rid' : option string),
    (FeatureFlag.canActivate flag tc rid = Ok true ->
     FeatureFlag.canActivate flag None rid' = Ok true)
    /\ (forall t, tc = Some t -> Tenant.tenantId t = "" ->
        FeatureFlag.canActivate flag tc rid = FeatureFlag.canActivate flag None rid).
Proof.
  intros flag tc rid rid'. split.
  - unfold FeatureFlag.canActivate.
    destruct (if_truthy flag) as [f|]; [|reflexivity].
    unfold FeatureFlag.isFeatureEnabled.
    destruct (includes FeatureFlag.enabledFeatures f); cbn [negb];
      [reflexivity | discriminate].
  - intros t -> Ht. unfold FeatureFlag.canActivate.
    destruct (if_truthy flag) as [f|]; [|reflexivity].
    cbn [option_map]. rewrite Ht. reflexivity.
Qed.

Lemma tenantless_request_most_permissive_witness :
  FeatureFlag.canActivate (Some "beta-reports") None (Some "r2") = Ok true.
Proof.
  apply (proj1 (tenantless_request_most_permissive (Some "beta-reports")
                  (Some (FeatureFlag.in_tenant "tenant-456")) None (Some "r2"))).
  reflexivity.
Defined.

Lemma use_sets_header (d : option string) (req : Tenant.Request)
    (next : Tenant.NextFunction) (o : Tenant.Outcome) :
  Tenant.use d req next = Ok o ->
  Tenant.res_x_tenant_id o =
  option_map Tenant.tenantId (Tenant.req_tenantContext o).
Proof.
  intros H.
  destruct (use_returns_inv _ _ _ H) as [_ [[_ ->]|[_ [context [_ [-> _]]]]]];
    reflexivity.
Qed.

Lemma isFeatureEnabled_table (flag : string) (tenantId : option string) :
  FeatureFlag.isFeatureEnabled flag tenantId =
  includes FeatureFlag.enabledFeatures flag
  && negb ((flag =? "beta-reports")
           && match if_truthy tenantId with
              | Some t => t =? "tenant-123"
              | None => false
              end).
Proof.
  unfold FeatureFlag.isFeatureEnabled.
  destruct (includes FeatureFlag.enabledFeatures flag) eqn:Ein;
    [|reflexivity].
  cbn [negb andb]. destruct (if_truthy tenantId) as [t|];
    [|now rewrite andb_false_r].
  apply includes_In in Ein. destruct Ein as [<-|[<-|[]]]; [reflexivity|].
  cbn [FeatureFlag.lookup_disabled FeatureFlag.disabledForTenants].
  rewrite String.eqb_refl. cbn [andb]. unfold includes. cbn [existsb].
  rewrite orb_false_r. now destruct (t =? "tenant-123").
Qed.

Lemma canActivate_enabled (flag : string)
    (tc : option Tenant.TenantContext) (rid : option string) :
  flag <> "" ->
  (FeatureFlag.canActivate (Some flag) tc rid = Ok true <->
   FeatureFlag.isFeatureEnabled flag (option_map Tenant.tenantId tc) = true).
Proof.
  intros Hne. unfold FeatureFlag.canActivate. rewrite (if_truthy_Some Hne).
  destruct (FeatureFlag.isFeatureEnabled flag (option_map Tenant.tenantId tc));
    cbn [negb]; split; try reflexivity; discriminate.
Qed.

(** X11. The feature gate after the tenant middleware: for a request the
    middleware let through, a required flag is allowed exactly when it is
    one of the enabled features and the request is not one that asks for
    beta-reports with the response header x-tenant-id set to tenant-123;
    how the tenant was found plays no part, and on an excluded path every
    enabled feature is allowed. *)
Theorem feature_gate_after_tenant_middleware :
  forall (d : option string) (req : Tenant.Request)
         (next : Tenant.NextFunction) (o : Tenant.Outcome)
         (flag : string) (rid : option string),
    Tenant.use d req next = Ok o ->
    flag <> "" ->
    (FeatureFlag.canActivate (Some flag) (Tenant.req_tenantContext o) rid =
     Ok true
     <->
     In flag FeatureFlag.enabledFeatures
     /\ ~ (flag = "beta-reports"
           /\ Tenant.res_x_tenant_id o = Some "tenant-123"))
    /\ (Tenant.isExcludedPath (Tenant.originalUrl req) = true ->
        In flag FeatureFlag.enabledFeatures ->
        FeatureFlag.canActivate (Some flag) (Tenant.req_tenantContext o) rid =
        Ok true).
Proof.
  intros d req next o flag rid Hu Hne.
  pose proof (use_sets_header _ _ _ Hu) as Hh.
  assert (Main :
    FeatureFlag.canActivate (Some flag) (Tenant.req_tenantContext o) rid =
    Ok true
    <->
    In flag FeatureFlag.enabledFeatures
    /\ ~ (flag = "beta-reports"
          /\ Tenant.res_x_tenant_id o = Some "tenant-123")).
  { rewrite Hh, (canActivate_enabled _ _ Hne), isFeatureEnabled_table.
    rewrite andb_true_iff, negb_true_iff, includes_In.
    apply and_iff_compat_l. rewrite andb_false_iff.
    destruct (Tenant.req_tenantContext o) as [tc|]; cbn [option_map].
    - destruct (if_truthy (Some (Tenant.tenantId tc))) as [t|] eqn:E.
      + apply if_truthy_inv in E. destruct E as [[= <-] _]. split.
        * intros [H|H] [-> [= Ht]].
          -- discriminate H.
          -- rewrite Ht in H. discriminate H.
        * intros H. destruct (flag =? "beta-reports") eqn:Ef; [|now left].
          right. apply String.eqb_neq. intros Ht. apply H.
          apply String.eqb_eq in Ef. now rewrite Ef, Ht.
      + split; [|now right]. intros _ [_ [= Ht]].
        rewrite Ht in E. discriminate E.
    - split; [|now right]. intros _ [_ H]. discriminate H. }
  split; [exact Main|].
  intros Hex Hin. apply Main. split; [exact Hin|].
  intros [_ H].
  destruct (use_returns_inv _ _ _ Hu) as [_ [[_ ->]|[Hex' _]]];
    [discriminate H | congruence].
Qed.

Lemma feature_gate_after_tenant_middleware_witness :
  FeatureFlag.canActivate (Some "beta-reports")
    (Tenant.req_tenantContext
       (Tenant.resolved {| Tenant.tenantId := "tenant-123";
                           Tenant.subdomain := Some "tenant-123";
                           Tenant.source := Tenant.subdomain_source |}))
    None = Ok true
  <->
  In "beta-reports" FeatureFlag.enabledFeatures
  /\ ~ ("beta-reports" = "beta-reports"
        /\ Tenant.res_x_tenant_id
             (Tenant.resolved {| Tenant.tenantId := "tenant-123";
                                 Tenant.subdomain := Some "tenant-123";
                                 Tenant.source := Tenant.subdomain_source |}) =
           Some "tenant-123").
Proof.
  apply (proj1 (@feature_gate_after_tenant_middleware None
           {| Tenant.originalUrl := "/api/reports";
              Tenant.hostname := Some "tenant-123.example.com";
              Tenant.x_tenant_id := Tenant.HAbsent;
              Tenant.requestId := None |}
           Tenant.returns
           (Tenant.resolved {| Tenant.tenantId := "tenant-123";
                               Tenant.subdomain := Some "tenant-123";
                               Tenant.source := Tenant.subdomain_source |})
           "beta-reports" None eq_refl ltac:(discriminate))).
Defined.

(** X12. The identity decorator after the role gate: when the role gate
    lets a request pass a non-empty requirement, [CurrentUser()] gives the
    handler the identity, never null, and [CurrentUser('roles')] gives a
    list that holds one of the required roles. *)
Theorem current_user_after_role_gate :
  forall (required : list string)
         (request_user : option CurrentUserDecorator.AuthenticatedUser)
         (rid : option string),
    required <> [] ->
    Roles.canActivate (Some required)
      (option_map CurrentUserDecorator.as_roles_user request_user) rid = Ok true ->
    exists user,
      request_user = Some user
      /\ CurrentUserDecorator.CurrentUser None request_user =
         CurrentUserDecorator.Whole user
      /\ CurrentUserDecorator.CurrentUser
           (Some CurrentUserDecorator.K_roles) request_user =
         CurrentUserDecorator.Field
           (CurrentUserDecorator.FRoles (CurrentUserDecorator.roles user))
      /\ exists r, In r required /\ In r (CurrentUserDecorator.roles user).
Proof.
  intros required request_user rid Hne H.
  destruct required as [|x xs]; [contradiction|].
  destruct request_user as [user|]; [|discriminate].
  exists user. split; [reflexivity|]. split; [reflexivity|].
  split; [reflexivity|].
  cbn [option_map] in H. unfold Roles.canActivate in H.
  apply (hasRole_exists (x :: xs)
           (Roles.roles_of (CurrentUserDecorator.as_roles_user user))).
  destruct (existsb
              (fun r => includes
                 (Roles.roles_of (CurrentUserDecorator.as_roles_user user)) r)
              (x :: xs)); [reflexivity | discriminate].
Qed.

Lemma current_user_after_role_gate_witness :
  exists user,
    Some {| CurrentUserDecorator.userId := "u1";
            CurrentUserDecorator.email := "a@b.c";
            CurrentUserDecorator.tenantId := None;
            CurrentUserDecorator.roles := ["user"; "admin"] |} = Some user
    /\ CurrentUserDecorator.CurrentUser None
         (Some {| CurrentUserDecorator.userId := "u1";
                  CurrentUserDecorator.email := "a@b.c";
                  CurrentUserDecorator.tenantId := None;
                  CurrentUserDecorator.roles := ["user"; "admin"] |}) =
       CurrentUserDecorator.Whole user
    /\ CurrentUserDecorator.CurrentUser (Some CurrentUserDecorator.K_roles)
         (Some {| CurrentUserDecorator.userId := "u1";
                  CurrentUserDecorator.email := "a@b.c";
                  CurrentUserDecorator.tenantId := None;
                  CurrentUserDecorator.roles := ["user"; "admin"] |}) =
       CurrentUserDecorator.Field
         (CurrentUserDecorator.FRoles (CurrentUserDecorator.roles user))
    /\ exists r, In r ["admin"] /\ In r (CurrentUserDecorator.roles user).
Proof.
  apply (@current_user_after_role_gate ["admin"]
           (Some {| CurrentUserDecorator.userId := "u1";
                    CurrentUserDecorator.email := "a@b.c";
                    CurrentUserDecorator.tenantId := None;
                    CurrentUserDecorator.roles := ["user"; "admin"] |})
           None).
  - discriminate.
  - reflexivity.
Defined.

End Gates.

(** ** BodySanitizer on trees: what it keeps *)

Section SanitizerKeeps.
Import Logger LoggerFacts.

(** Induction on values, through arrays and mappings. *)
Lemma value_induction (P : value -> Prop) :
  P VUndefined -> P VNull -> (forall b, P (VBool b)) ->
  (forall x, P (VNumber x)) -> (forall n, P (VBigInt n)) ->
  (forall s, P (VStr s)) ->
  (forall elems, Forall P elems -> P (VArr elems)) ->
  (forall o, Forall (fun kv => P (snd kv)) o -> P (VObj o)) ->
  forall v, P v.
Proof.
  intros Hu Hn Hb Hz Hg Hs Ha Ho. fix IH 1.
  intros [| |b|n|n|s|elems|o];
    [exact Hu | exact Hn | apply Hb | apply Hz | apply Hg | apply Hs | | ].
  - apply Ha. revert elems. fix IHl 1. intros [|x rest]; constructor.
    + apply IH.
    + apply IHl.
  - apply Ho. revert o. fix IHl 1. intros [|[k x] rest]; constructor.
    + apply IH.
    + apply IHl.
Qed.

Lemma keys_sanitized_props (o : object) : keys (sanitized_props o) = keys o.
Proof.
  rewrite sanitized_props_map. unfold keys. rewrite map_map. reflexivity.
Qed.

Lemma sanitized_props_cons (k : string) (x : value) (rest : object) :
  sanitized_props ((k, x) :: rest) =
  (k, sanitized_value k x) :: sanitized_props rest.
Proof. reflexivity. Qed.

Lemma deepest_cons (k : string) (x : value) (rest : object) :
  deepest ((k, x) :: rest) = Nat.max (nesting x) (deepest rest).
Proof. reflexivity. Qed.

Lemma nested_flat (v : value) : is_mapping v = false -> nested v = v.
Proof. destruct v; [reflexivity.. | discriminate]. Qed.

Lemma sanitized_value_facts_flat (k : string) (v : value) :
  is_mapping v = false ->
  unique_keys v = true ->
  sanitized_value k (sanitized_value k v) = sanitized_value k v
  /\ unique_keys (sanitized_value k v) = true
  /\ (nesting (sanitized_value k v) <= nesting v)%nat.
Proof.
  intros Hm Hu. rewrite (sanitized_value_eq k v).
  destruct (includes sensitiveFields k && truthy v) eqn:E.
  - apply andb_true_iff in E. destruct E as [Ek _].
    rewrite sanitized_value_redacted by (exact Ek || reflexivity).
    repeat split. cbn. lia.
  - rewrite (nested_flat _ Hm), sanitized_value_eq, E, (nested_flat _ Hm).
    repeat split; [exact Hu | lia].
Qed.

(** Sanitizing once more changes nothing, and what comes out is as well
    formed and no deeper than what went in. *)
Lemma sanitized_value_facts (v : value) :
  forall k,
    unique_keys v = true ->
    sanitized_value k (sanitized_value k v) = sanitized_value k v
    /\ unique_keys (sanitized_value k v) = true
    /\ (nesting (sanitized_value k v) <= nesting v)%nat.
Proof.
  induction v as [| |b|n|n|s|elems _|o IH] using value_induction; intros k Hu;
    try (now apply sanitized_value_facts_flat).
  destruct (includes sensitiveFields k) eqn:Ek.
  - rewrite (sanitized_value_redacted k (VObj o)) by (exact Ek || reflexivity).
    rewrite sanitized_value_redacted by (exact Ek || reflexivity).
    repeat split. cbn. lia.
  - rewrite (@sanitized_value_obj k o Ek), (@sanitized_value_obj k _ Ek).
    rewrite unique_keys_obj in Hu. apply andb_true_iff in Hu.
    destruct Hu as [Hd Hall].
    assert (L : sanitized_props (sanitized_props o) = sanitized_props o
                /\ forallb (fun kv => unique_keys (snd kv)) (sanitized_props o)
                   = true
                /\ (deepest (sanitized_props o) <= deepest o)%nat).
    { clear Hd. induction o as [|[k' x] rest IHo].
      - repeat split. cbn. lia.
      - inversion IH as [|? ? Hx Hrest]; subst. cbn [snd] in Hx.
        cbn [forallb snd] in Hall. apply andb_true_iff in Hall.
        destruct Hall as [Hux Hur].
        destruct (Hx k' Hux) as [H1 [H2 H3]].
        destruct (IHo Hrest Hur) as [G1 [G2 G3]].
        rewrite ! sanitized_props_cons, H1, G1. cbn [forallb snd].
        rewrite H2, G2, ! deepest_cons. repeat split. lia. }
    destruct L as [L1 [L2 L3]]. rewrite L1.
    rewrite unique_keys_obj, keys_sanitized_props, Hd, L2, ! nesting_obj.
    repeat split. lia.
Qed.

Lemma sanitized_props_facts (o : object) :
  unique_keys (VObj o) = true ->
  sanitized_props (sanitized_props o) = sanitized_props o
  /\ unique_keys (VObj (sanitized_props o)) = true
  /\ (nesting (VObj (sanitized_props o)) <= nesting (VObj o))%nat.
Proof.
  intros Hu.
  destruct (sanitized_value_facts (VObj o) "" Hu) as [H1 [H2 H3]].
  rewrite (sanitized_value_obj "" o eq_refl) in *.
  split; [now injection H1 | now split].
Qed.

(** X13. [sanitizeBody] never adds, removes or reorders a property: the
    result has the body's property names in the body's order, and so has
    every mapping in it that is reached through mappings under names that
    are not sensitive. *)
Theorem sanitizeBody_keeps_property_names :
  forall (body : object) (fuel : nat),
    unique_keys (VObj body) = true ->
    (nesting (VObj body) <= fuel)%nat ->
    exists r,
      sanitizeBody fuel (VObj body) = Some r
      /\ keys r = keys body
      /\ (forall path m,
             Forall (fun p => ~ In p sensitiveFields) path ->
             descend (VObj body) path = VObj m ->
             exists m', descend (VObj r) path = VObj m' /\ keys m' = keys m).
Proof.
  intros body fuel Hu Hn. exists (sanitized_props body).
  split; [now apply sanitizeBody_props|].
  split; [apply keys_sanitized_props|].
  intros path m Hp Hd. exists (sanitized_props m).
  split; [now apply (@descend_sanitized path) | apply keys_sanitized_props].
Qed.

Lemma sanitizeBody_keeps_property_names_witness :
  exists r,
    sanitizeBody 2 (VObj nested_body) = Some r
    /\ keys r = keys nested_body
    /\ (forall path m,
           Forall (fun p => ~ In p sensitiveFields) path ->
           descend (VObj nested_body) path = VObj m ->
           exists m', descend (VObj r) path = VObj m' /\ keys m' = keys m).
Proof.
  apply sanitizeBody_keeps_property_names.
  - reflexivity.
  - simpl. lia.
Defined.

(** X14. [sanitizeBody] is idempotent: sanitizing its result again gives
    the same result. *)
Theorem sanitizeBody_idempotent :
  forall (body : object) (fuel : nat),
    unique_keys (VObj body) = true ->
    (nesting (VObj body) <= fuel)%nat ->
    exists r,
      sanitizeBody fuel (VObj body) = Some r
      /\ sanitizeBody fuel (VObj r) = Some r.
Proof.
  intros body fuel Hu Hn. exists (sanitized_props body).
  split; [now apply sanitizeBody_props|].
  destruct (sanitized_props_facts body Hu) as [H1 [H2 H3]].
  rewrite sanitizeBody_props by (exact H2 || lia). now rewrite H1.
Qed.

Lemma sanitizeBody_idempotent_witness :
  exists r,
    sanitizeBody 2 (VObj nested_body) = Some r
    /\ sanitizeBody 2 (VObj r) = Some r.
Proof.
  apply sanitizeBody_idempotent.
  - reflexivity.
  - simpl. lia.
Defined.

Lemma clean_value_eq (k : string) (v : value) :
  clean_value k v =
  negb (includes sensitiveFields k && truthy v)
  && match v with VObj o => clean_props o | _ => true end.
Proof. destruct v; reflexivity. Qed.

Lemma clean_value_fixed (v : value) :
  forall k, clean_value k v = true -> sanitized_value k v = v.
Proof.
  induction v as [| |b|n|n|s|elems _|o IH] using value_induction; intros k Hc;
    rewrite clean_value_eq in Hc; apply andb_true_iff in Hc;
    destruct Hc as [Hc Ho]; apply negb_true_iff in Hc;
    rewrite sanitized_value_eq, Hc; try reflexivity.
  cbn [nested]. f_equal. clear Hc.
  induction o as [|[k' x] rest IHo]; [reflexivity|].
  inversion IH as [|? ? Hx Hrest]; subst. cbn [snd] in Hx.
  cbn [clean_props] in Ho. apply andb_true_iff in Ho. destruct Ho as [H1 H2].
  rewrite sanitized_props_cons, (Hx k' H1), (IHo Hrest H2). reflexivity.
Qed.

(** X15. A body in which no mapping holds a truthy value under a
    sensitive name comes back as it is. *)
Theorem sanitizeBody_identity_on_clean_bodies :
  forall (body : object) (fuel : nat),
    unique_keys (VObj body) = true ->
    (nesting (VObj body) <= fuel)%nat ->
    clean_props body = true ->
    sanitizeBody fuel (VObj body) = Some body.
Proof.
  intros body fuel Hu Hn Hc. rewrite sanitizeBody_props by assumption.
  f_equal.
  assert (H : clean_value "" (VObj body) = true)
    by (rewrite clean_value_eq; exact Hc).
  apply clean_value_fixed in H.
  rewrite (@sanitized_value_obj "" body eq_refl) in H. now injection H.
Qed.

Lemma sanitizeBody_identity_on_clean_bodies_witness :
  sanitizeBody 3
    (VObj [("user", VObj [("id", VNum 1);
                          ("email", VStr "test@example.com");
                          ("password", VStr "");
                          ("profile", VObj [("firstName", VStr "John")])])]) =
  Some [("user", VObj [("id", VNum 1);
                       ("email", VStr "test@example.com");
                       ("password", VStr "");
                       ("profile", VObj [("firstName", VStr "John")])])].
Proof.
  apply sanitizeBody_identity_on_clean_bodies.
  - reflexivity.
  - simpl. lia.
  - reflexivity.
Defined.

(** X16. The only values [sanitizeBody] replaces are truthy values under
    sensitive names and mappings: a value that is not a mapping, held in a
    mapping reached through mappings under names that are not sensitive,
    is in the result as it was when its own name is not sensitive or when
    it is falsy. *)
Theorem other_values_pass_through :
  forall (body m : object) (path : list string) (k : string) (fuel : nat),
    unique_keys (VObj body) = true ->
    (nesting (VObj body) <= fuel)%nat ->
    Forall (fun p => ~ In p sensitiveFields) path ->
    descend (VObj body) path = VObj m ->
    is_mapping (get m k) = false ->
    ~ In k sensitiveFields \/ truthy (get m k) = false ->
    exists r,
      sanitizeBody fuel (VObj body) = Some r
      /\ descend (VObj r) (path ++ [k]) = get m k.
Proof.
  intros body m path k fuel Hu Hn Hp Hd Hm Hk.
  exists (sanitized_props body).
  split; [now apply sanitizeBody_props|].
  rewrite descend_app, (@descend_sanitized path body m Hp Hd). cbn [descend].
  rewrite get_sanitized_props, sanitized_value_eq.
  assert (E : includes sensitiveFields k && truthy (get m k) = false).
  { destruct Hk as [Hk|Hk].
    - apply includes_not_In in Hk. now rewrite Hk.
    - rewrite Hk. apply andb_false_r. }
  rewrite E. now apply nested_flat.
Qed.

Lemma other_values_pass_through_witness :
  exists r,
    sanitizeBody 2
      (VObj [("card", VObj [("holder", VStr "john"); ("cvv", VNum 0)])]) =
    Some r
    /\ descend (VObj r) (["card"] ++ ["cvv"]) =
       get [("holder", VStr "john"); ("cvv", VNum 0)] "cvv".
Proof.
  apply (@other_values_pass_through
           [("card", VObj [("holder", VStr "john"); ("cvv", VNum 0)])]
           [("holder", VStr "john"); ("cvv", VNum 0)] ["card"] "cvv" 2).
  - reflexivity.
  - simpl. lia.
  - constructor; [|constructor].
    intros [H|[H|[H|[H|[H|[H|[]]]]]]]; discriminate H.
  - reflexivity.
  - reflexivity.
  - now right.
Defined.

Lemma to_uint_nonnil (n : nat) : Nat.to_uint n <> Decimal.Nil.
Proof.
  intros H. pose proof (DecimalNat.Unsigned.of_to n) as E.
  rewrite H in E. cbn in E. subst n. discriminate H.
Qed.

Lemma decimal_parses (n : nat) :
  DecimalString.NilZero.uint_of_string (decimal n) = Some (Nat.to_uint n).
Proof.
  unfold decimal. apply DecimalString.NilZero.usu. apply to_uint_nonnil.
Qed.

Lemma decimal_inj (n m : nat) : decimal n = decimal m -> n = m.
Proof.
  intros H. apply DecimalNat.Unsigned.to_uint_inj.
  pose proof (decimal_parses n) as En. rewrite H, decimal_parses in En.
  now injection En.
Qed.

Lemma decimal_not_sensitive (n : nat) :
  includes sensitiveFields (decimal n) = false.
Proof.
  apply includes_not_In. intros Hin.
  pose proof (decimal_parses n) as E.
  repeat (destruct Hin as [Hin|Hin];
          [rewrite <- Hin in E; vm_compute in E; discriminate E|]).
  destruct Hin.
Qed.

Lemma keys_indexed (elems : list value) :
  forall i, keys (indexed i elems) = map decimal (seq i (List.length elems)).
Proof.
  induction elems as [|x rest IH]; intros i; [reflexivity|].
  cbn [indexed List.length seq map]. rewrite keys_cons. now rewrite IH.
Qed.

Lemma distinct_indexed (elems : list value) :
  forall i, distinct (keys (indexed i elems)) = true.
Proof.
  induction elems as [|x rest IH]; intros i; [reflexivity|].
  cbn [indexed]. rewrite keys_cons. cbn [distinct]. rewrite IH, andb_true_r.
  apply negb_true_iff, includes_not_In. rewrite keys_indexed.
  intros Hin. apply in_map_iff in Hin. destruct Hin as [j [Hj Hin]].
  apply decimal_inj in Hj. subst j. apply in_seq in Hin. lia.
Qed.

Lemma get_indexed (elems : list value) :
  forall i j x,
    nth_error elems j = Some x ->
    get (indexed i elems) (decimal (i + j)) = x.
Proof.
  induction elems as [|y rest IH]; intros i j x H.
  - destruct j; discriminate H.
  - cbn [indexed get]. destruct j as [|j].
    + rewrite Nat.add_0_r, String.eqb_refl. now injection H.
    + destruct (String.eqb_spec (decimal i) (decimal (i + S j))) as [E|_].
      * apply decimal_inj in E. lia.
      * rewrite <- Nat.add_succ_comm. now apply IH.
Qed.

Lemma forallb_indexed (elems : list value) :
  forall i,
    forallb (fun kv => unique_keys (snd kv)) (indexed i elems) =
    forallb unique_keys elems.
Proof.
  induction elems as [|x rest IH]; intros i; [reflexivity|].
  cbn [indexed forallb snd]. now rewrite IH.
Qed.

Lemma deepest_bound (o : object) (n : nat) :
  (forall k x, In (k, x) o -> (nesting x <= n)%nat) -> (deepest o <= n)%nat.
Proof.
  induction o as [|[k x] rest IH]; intros H; [cbn; lia|].
  rewrite deepest_cons. apply Nat.max_lub.
  - apply (H k x). now left.
  - apply IH. intros k' x' Hin. apply (H k' x'). now right.
Qed.

Lemma In_indexed (elems : list value) :
  forall i k x, In (k, x) (indexed i elems) -> In x elems.
Proof.
  induction elems as [|y rest IH]; intros i k x H; [destruct H|].
  cbn [indexed] in H. destruct H as [[= _ <-]|H]; [now left|].
  right. now apply (IH (S i) k).
Qed.

(** [sanitizeBody] on any body, through the properties [{...body}] gives
    it. *)
Lemma sanitizeBody_spread (fuel : nat) (body : value) :
  distinct (keys (spread body)) = true ->
  forallb (fun kv => unique_keys (snd kv)) (spread body) = true ->
  (deepest (spread body) <= fuel)%nat ->
  sanitizeBody (S fuel) body = Some (sanitized_props (spread body)).
Proof.
  intros Hd Hall Hn. rewrite sanitizeBody_unfold.
  rewrite (redact_loop _ _ Hd), keys_redact_props, nested_loop.
  - now rewrite loops_compose.
  - exact Hd.
  - now rewrite keys_redact_props.
  - intros k o' _ G. rewrite get_redact_props in G.
    destruct (includes sensitiveFields k && truthy (get (spread body) k));
      [discriminate|].
    apply get_In in G. apply sanitizeBody_props.
    + rewrite forallb_forall in Hall. apply (Hall _ G).
    + apply nesting_In in G. lia.
Qed.

(** X17. A body that is an array at the top is not passed through: the
    result is an object with the indices "0", "1", ... as property names, in
    which every element that is a mapping has been replaced by its own
    sanitized copy and every other element is as it was. *)
Theorem top_level_array_elements_sanitized :
  forall (elems : list value) (fuel : nat),
    forallb unique_keys elems = true ->
    (forall x, In x elems -> (nesting x <= fuel)%nat) ->
    exists r,
      sanitizeBody (S fuel) (VArr elems) = Some r
      /\ keys r = map decimal (seq 0 (List.length elems))
      /\ (forall i x,
             nth_error elems i = Some x ->
             get r (decimal i) =
             match x with
             | VObj o =>
                 match sanitizeBody (S fuel) x with
                 | Some ro => VObj ro
                 | None => x
                 end
             | _ => x
             end).
Proof.
  intros elems fuel Hu Hn.
  exists (sanitized_props (indexed 0 elems)). split; [|split].
  - apply sanitizeBody_spread; cbn [spread].
    + apply distinct_indexed.
    + now rewrite forallb_indexed.
    + apply deepest_bound. intros k x Hin. apply Hn.
      now apply (In_indexed elems 0 k).
  - now rewrite keys_sanitized_props, keys_indexed.
  - intros i x Hx. rewrite get_sanitized_props.
    pose proof (get_indexed elems 0 i Hx) as Hg. cbn [Nat.add] in Hg.
    rewrite Hg, sanitized_value_eq.
    rewrite decimal_not_sensitive. cbn [andb].
    destruct x as [| |b|n|n|s|l|o]; try reflexivity.
    cbn [nested]. rewrite sanitizeBody_props; [reflexivity| |].
    + rewrite forallb_forall in Hu. apply Hu. now apply (nth_error_In elems i).
    + specialize (Hn _ (nth_error_In elems i Hx)). lia.
Qed.

Lemma top_level_array_elements_sanitized_witness :
  exists r,
    sanitizeBody 2 (VArr [VObj [("name", VStr "User1");
                                ("password", VStr "pass1")];
                          VStr "x"]) = Some r
    /\ keys r = map decimal (seq 0 2)
    /\ (forall i x,
           nth_error [VObj [("name", VStr "User1");
                            ("password", VStr "pass1")];
                      VStr "x"] i = Some x ->
           get r (decimal i) =
           match x with
           | VObj o =>
               match sanitizeBody 2 x with
               | Some ro => VObj ro
               | None => x
               end
           | _ => x
           end).
Proof.
  apply (@top_level_array_elements_sanitized
           [VObj [("name", VStr "User1"); ("password", VStr "pass1")];
            VStr "x"] 1).
  - reflexivity.
  - intros x [<-|[<-|[]]]; simpl; lia.
Defined.

End SanitizerKeeps.

(** ** RequestLogger: bodies it logs without throwing *)

Section LoggerReturns.
Import Logger LoggerFacts.

Lemma serialize_arr (elems : list value) :
  serialize (VArr elems) =
  match serialize_items elems with
  | Throw e => Throw e
  | Ok parts => Ok (Some ("[" ++ String.concat "," parts ++ "]"))
  end.
Proof. reflexivity. Qed.

Lemma serialize_obj (o : object) :
  serialize (VObj o) =
  match serialize_members o with
  | Throw e => Throw e
  | Ok parts => Ok (Some ("{" ++ String.concat "," parts ++ "}"))
  end.
Proof. reflexivity. Qed.

Lemma bigint_free_arr (elems : list value) :
  bigint_free (VArr elems) = forallb bigint_free elems.
Proof.
  cbn [bigint_free]. induction elems as [|x rest IH]; [reflexivity|].
  cbn [forallb]. now rewrite <- IH.
Qed.

Lemma bigint_free_obj (o : object) :
  bigint_free (VObj o) = forallb (fun kv => bigint_free (snd kv)) o.
Proof.
  cbn [bigint_free]. induction o as [|[k x] rest IH]; [reflexivity|].
  cbn [forallb snd]. now rewrite <- IH.
Qed.

(** Without a BigInt, serialisation does not throw. *)
Lemma serialize_total (v : value) :
  bigint_free v = true -> exists r, serialize v = Ok r.
Proof.
  induction v as [| |b|n|n|s|elems IH|o IH] using value_induction; intros Hf;
    try (eexists; reflexivity).
  - discriminate Hf.
  - rewrite bigint_free_arr in Hf. rewrite serialize_arr.
    assert (L : exists parts, serialize_items elems = Ok parts).
    { induction elems as [|x rest IHl]; [now exists []|].
      inversion IH as [|? ? Hx Hrest]; subst.
      cbn [forallb] in Hf. apply andb_true_iff in Hf. destruct Hf as [F1 F2].
      destruct (Hx F1) as [rx Ex]. destruct (IHl Hrest F2) as [rr Er].
      cbn [serialize_items]. rewrite Ex, Er. eexists; reflexivity. }
    destruct L as [parts ->]. eexists; reflexivity.
  - rewrite bigint_free_obj in Hf. rewrite serialize_obj.
    assert (L : exists parts, serialize_members o = Ok parts).
    { induction o as [|[k x] rest IHl]; [now exists []|].
      inversion IH as [|? ? Hx Hrest]; subst. cbn [snd] in Hx.
      cbn [forallb snd] in Hf. apply andb_true_iff in Hf.
      destruct Hf as [F1 F2].
      destruct (Hx F1) as [rx Ex]. destruct (IHl Hrest F2) as [rr Er].
      cbn [serialize_members]. rewrite Ex, Er. eexists; reflexivity. }
    destruct L as [parts ->]. eexists; reflexivity.
Qed.




Lemma serialize_throws (v : value) :
  bigint_free v = false ->
  serialize v = Throw (TypeError "Do not know how to serialize a BigInt").
Proof.
  induction v as [| |b|n|n|s|elems IH|o IH] using value_induction; intros Hf;
    try discriminate Hf; try reflexivity.
  - rewrite bigint_free_arr in Hf. rewrite serialize_arr.
    assert (L : serialize_items elems =
                Throw (TypeError "Do not know how to serialize a BigInt")).
    { induction elems as [|x rest IHl]; [discriminate Hf|].
      inversion IH as [|? ? Hx Hrest]; subst.
      cbn [forallb] in Hf. cbn [serialize_items].
      destruct (bigint_free x) eqn:Fx.
      - destruct (serialize_total x Fx) as [rx ->].
        now rewrite (IHl Hrest Hf).
      - now rewrite (Hx eq_refl). }
    now rewrite L.
  - rewrite bigint_free_obj in Hf. rewrite serialize_obj.
    assert (L : serialize_members o =
                Throw (TypeError "Do not know how to serialize a BigInt")).
    { induction o as [|[k x] rest IHl]; [discriminate Hf|].
      inversion IH as [|? ? Hx Hrest]; subst. cbn [snd] in Hx.
      cbn [forallb snd] in Hf. cbn [serialize_members].
      destruct (bigint_free x) eqn:Fx.
      - destruct (serialize_total x Fx) as [rx ->].
        now rewrite (IHl Hrest Hf).
      - now rewrite (Hx eq_refl). }
    now rewrite L.
Qed.

Lemma get_In_entry (o : object) (k : string) (v : value) :
  get o k = v -> v <> VUndefined -> In (k, v) o.
Proof.
  induction o as [|[k0 v0] rest IH]; cbn [get]; [congruence|].
  destruct (k0 =? k) eqn:E.
  - apply String.eqb_eq in E. subst k0. intros -> _. now left.
  - intros H Hv. right. now apply IH.
Qed.

(** X19. For a body that is a mapping holding a BigInt in a property of
    its own that is not redacted (its name is not sensitive, or the BigInt
    is 0n), [use] logs the incoming line and throws the TypeError of
    JSON.stringify; no body line is logged. *)
Theorem use_throws_on_any_bigint :
  forall (fuel : nat) (req : Request) (o : object) (k : string) (n : Z),
    body req = VObj o ->
    unique_keys (VObj o) = true ->
    (nesting (VObj o) <= fuel)%nat ->
    get o k = VBigInt n ->
    ~ In k sensitiveFields \/ n = 0%Z ->
    use fuel req =
    ([incoming_line req],
     Throw (TypeError "Do not know how to serialize a BigInt")).
Proof.
  intros fuel req o k n Hb Hu Hn Hg Hk.
  assert (Hs : sanitizeBody fuel (VObj o) = Some (sanitized_props o))
    by now apply sanitizeBody_props.
  assert (Hkept : get (sanitized_props o) k = VBigInt n).
  { rewrite get_sanitized_props, Hg, sanitized_value_eq.
    destruct Hk as [Hk| ->].
    - apply includes_not_In in Hk. now rewrite Hk.
    - cbn [truthy Z.eqb negb]. now rewrite andb_false_r. }
  assert (Hf : bigint_free (VObj (sanitized_props o)) = false).
  { rewrite bigint_free_obj.
    destruct (forallb (fun kv => bigint_free (snd kv)) (sanitized_props o))
      eqn:E; [|reflexivity].
    rewrite forallb_forall in E.
    assert (Hin : In (k, VBigInt n) (sanitized_props o))
      by (apply get_In_entry; [exact Hkept | discriminate]).
    apply E in Hin. discriminate Hin. }
  assert (Hj : JSON_stringify (VObj (sanitized_props o)) =
               Throw (TypeError "Do not know how to serialize a BigInt")).
  { unfold JSON_stringify. now rewrite (serialize_throws _ Hf). }
  assert (Hne : o <> []) by (intros ->; discriminate Hg).
  unfold use. rewrite Hb, Hs, Hj. cbn [truthy spread andb].
  destruct o as [|kv rest]; [contradiction|]. reflexivity.
Qed.

Lemma use_throws_on_any_bigint_witness :
  use 1 {| method := "POST"; originalUrl := "/api/pay"; user_agent := None;
           body := VObj [("amount", VBigInt 12); ("password", VStr "pw")];
           requestId := Some "r1" |} =
  ([incoming_line
      {| method := "POST"; originalUrl := "/api/pay"; user_agent := None;
         body := VObj [("amount", VBigInt 12); ("password", VStr "pw")];
         requestId := Some "r1" |}],
   Throw (TypeError "Do not know how to serialize a BigInt")).
Proof.
  apply (@use_throws_on_any_bigint 1
           {| method := "POST"; originalUrl := "/api/pay"; user_agent := None;
              body := VObj [("amount", VBigInt 12); ("password", VStr "pw")];
              requestId := Some "r1" |}
           [("amount", VBigInt 12); ("password", VStr "pw")] "amount" 12).
  - reflexivity.
  - reflexivity.
  - simpl. lia.
  - reflexivity.
  - left. intros [H|[H|[H|[H|[H|[H|[]]]]]]]; discriminate H.
Defined.

End LoggerReturns.

(** ** BodySanitizer on the heap: the input, cycles and sensitive names *)

Section SanitizerOnHeap.
Import Cyclic.
Local Open Scope list_scope.

(** X20. [sanitizeBody] never changes an object it is given: when it
    returns, every object that was on the heap is as it was, and the object
    it returns is a new one. *)
Theorem sanitizeBody_never_mutates :
  forall (fuel : nat) (h : heap) (a : nat) (h' : heap) (a' : nat),
    sanitizeBody fuel h a = Some (h', a') ->
    a' = List.length h
    /\ (List.length h < List.length h')%nat
    /\ (forall i, (i < List.length h)%nat -> deref h' i = deref h i).
Proof.
  intros fuel h a h' a' H.
  destruct (sanitizeBody_extends _ _ _ H) as [Hl Hd].
  split; [|split; assumption].
  destruct fuel as [|fuel]; [discriminate|].
  rewrite sanitizeBody_unfold_heap in H. cbv zeta in H.
  destruct (fold_left _ _ _) in H; [|discriminate]. now injection H.
Qed.

Lemma sanitizeBody_never_mutates_witness :
  2%nat = List.length [[("password", VStr "x"); ("n", VRef 1)];
                       [("token", VNum 5)]]
  /\ (List.length [[("password", VStr "x"); ("n", VRef 1)];
                   [("token", VNum 5)]]
      < List.length [[("password", VStr "x"); ("n", VRef 1)];
                     [("token", VNum 5)];
                     [("password", VStr "[REDACTED]"); ("n", VRef 3)];
                     [("token", VStr "[REDACTED]")]])%nat
  /\ (forall i,
         (i < List.length [[("password", VStr "x"); ("n", VRef 1)];
                           [("token", VNum 5)]])%nat ->
         deref [[("password", VStr "x"); ("n", VRef 1)];
                [("token", VNum 5)];
                [("password", VStr "[REDACTED]"); ("n", VRef 3)];
                [("token", VStr "[REDACTED]")]] i =
         deref [[("password", VStr "x"); ("n", VRef 1)];
                [("token", VNum 5)]] i).
Proof.
  apply (@sanitizeBody_never_mutates 2
           [[("password", VStr "x"); ("n", VRef 1)]; [("token", VNum 5)]] 0).
  reflexivity.
Defined.

(** X21. An object from which a cycle is reached overflows the stack: if
    the object is on a cycle of mapping-valued fields under names that are
    not sensitive, or reaches such a cycle along such fields, [sanitizeBody]
    returns for no depth of the stack. *)
Theorem sanitizeBody_overflows_when_reaching_cycle :
  forall (h : heap) (a c : nat) (fuel : nat),
    a = c \/ reaches h a c ->
    reaches h c c ->
    sanitizeBody fuel h a = None.
Proof.
  intros h a c fuel Ha Hc.
  apply (@sanitizeBody_overflows (fun x => x = c \/ reaches h x c));
    [|exact Ha].
  intros x [->|Hx].
  - inversion Hc as [? ? He|? y ? He Hy]; subst.
    + exists c. split; [exact He | now left].
    + exists y. split; [exact He | now right].
  - inversion Hx as [? ? He|? y ? He Hy]; subst.
    + exists c. split; [exact He | now left].
    + exists y. split; [exact He | now right].
Qed.

(** The body of the test "should handle circular references in nested
    objects": [nested.circular = nested] and [body = { name, nested }]. *)
Lemma sanitizeBody_overflows_when_reaching_cycle_witness :
  sanitizeBody 7
    [[("name", VStr "test"); ("nested", VRef 1)];
     [("value", VStr "nested"); ("circular", VRef 1)]] 0 = None.
Proof.
  apply (@sanitizeBody_overflows_when_reaching_cycle _ 0 1 7).
  - right. apply reaches_edge. exists "nested". split; reflexivity.
  - apply reaches_edge. exists "circular". split; reflexivity.
Defined.

Lemma get_set_same (o : object) (k : string) (v : value) :
  get (set o k v) k = v.
Proof.
  induction o as [|[k0 v0] rest IH]; cbn [set get].
  - now rewrite String.eqb_refl.
  - destruct (k0 =? k) eqn:E; cbn [get]; rewrite E; [reflexivity | exact IH].
Qed.

(** What the first loop leaves under each name of the copy. *)
Lemma redact_loop_get (h : heap) (fields : list string) :
  forall (h1 : heap) (k : string),
    extends h h1 ->
    get (deref (fold_left (redact_step (List.length h)) fields h1)
               (List.length h)) k =
    if includes fields k && truthy (get (deref h1 (List.length h)) k)
    then REDACTED
    else get (deref h1 (List.length h)) k.
Proof.
  induction fields as [|f fs IH]; intros h1 k He; cbn [fold_left].
  - reflexivity.
  - assert (He' : extends h (redact_step (List.length h) h1 f)).
    { unfold redact_step.
      destruct (truthy (get (deref h1 (List.length h)) f));
        [now apply extends_assign | exact He]. }
    rewrite (IH _ k He'). rewrite includes_cons.
    unfold redact_step.
    destruct (truthy (get (deref h1 (List.length h)) f)) eqn:Tf.
    + unfold assign. rewrite deref_store_same by (destruct He; lia).
      destruct (String.eqb_spec k f) as [->|Hne].
      * rewrite get_set_same, Tf. cbn [orb andb].
        now destruct (includes fs f).
      * rewrite get_set_other by congruence. reflexivity.
    + destruct (String.eqb_spec k f) as [->|Hne]; [|reflexivity].
      rewrite Tf, andb_false_r. reflexivity.
Qed.

(** X22. A reference held under a sensitive name is never followed: when
    every object that an object holds is held under a sensitive name,
    [sanitizeBody] returns with a stack of depth one, even if the object
    holds itself, and the copy has "[REDACTED]" in place of every truthy
    value under a sensitive name and the other values as they were. *)
Theorem references_under_sensitive_names_are_cut :
  forall (h : heap) (a : nat),
    (forall k b, get (deref h a) k = VRef b -> In k sensitiveFields) ->
    exists h',
      sanitizeBody 1 h a = Some (h', List.length h)
      /\ (forall k,
             get (deref h' (List.length h)) k =
             if includes sensitiveFields k && truthy (get (deref h a) k)
             then REDACTED
             else get (deref h a) k).
Proof.
  intros h a Href. rewrite sanitizeBody_unfold_heap. cbv zeta.
  pose proof (extends_refl_app h (deref h a)) as He.
  set (h1 := fold_left (redact_step (List.length h)) sensitiveFields
                       (h ++ [deref h a])).
  assert (G : forall k,
             get (deref h1 (List.length h)) k =
             if includes sensitiveFields k && truthy (get (deref h a) k)
             then REDACTED
             else get (deref h a) k).
  { intros k. unfold h1. rewrite (redact_loop_get sensitiveFields k He).
    now rewrite deref_app_new. }
  assert (L : forall ks,
             fold_left (nested_step 0 (List.length h)) ks (Some h1) = Some h1).
  { induction ks as [|k ks IHk]; [reflexivity|]. cbn [fold_left].
    assert (E : nested_step 0 (List.length h) (Some h1) k = Some h1).
    { unfold nested_step. rewrite G.
      destruct (includes sensitiveFields k && truthy (get (deref h a) k))
        eqn:Ek; [reflexivity|].
      destruct (get (deref h a) k) eqn:Eg; try reflexivity.
      exfalso. apply Href in Eg. apply includes_In in Eg.
      rewrite Eg in Ek. discriminate Ek. }
    now rewrite E. }
  rewrite L. exists h1. split; [reflexivity | exact G].
Qed.

(** [const body = { name: 'test' }; body.token = body]. *)
Lemma references_under_sensitive_names_are_cut_witness :
  exists h',
    sanitizeBody 1 [[("name", VStr "test"); ("token", VRef 0)]] 0 =
    Some (h', List.length [[("name", VStr "test"); ("token", VRef 0)]])
    /\ (forall k,
           get (deref h' (List.length [[("name", VStr "test");
                                        ("token", VRef 0)]])) k =
           if includes sensitiveFields k
              && truthy (get (deref [[("name", VStr "test");
                                      ("token", VRef 0)]] 0) k)
           then REDACTED
           else get (deref [[("name", VStr "test"); ("token", VRef 0)]] 0) k).
Proof.
  apply (@references_under_sensitive_names_are_cut
           [[("name", VStr "test"); ("token", VRef 0)]] 0).
  intros k b H. unfold deref in H. cbn [nth get] in H.
  destruct ("name" =? k); [discriminate H|].
  destruct (String.eqb_spec "token" k) as [<-|]; [|discriminate H].
  simpl. tauto.
Defined.

End SanitizerOnHeap.
